(** * NtripClient: a shallow embedding of ntrip_client.cpp

    The development follows the translation unit top to bottom:
    - [Base64]: the static helper [base64_encode] and its table [b];
    - [Sys]: the observable effects of the system calls the client makes;
    - [Client]: the class [NtripClient] (fields of ntrip_client.h, methods
      [Init], [Run], [Stop], [IsRunning], [UpdateGGA], [Cleanup],
      [ThreadHandler]).

    C++ [int] values are integers of [Z] with the 32-bit two's complement
    wrap-around written out where the source can overflow; [std::string] is
    [string], a sequence of 8-bit characters. *)

From Stdlib Require Import ZArith String Ascii List Bool Lia.
Import ListNotations.

Local Open Scope string_scope.
Local Open Scope Z_scope.
Local Open Scope list_scope.

(** ** Strings as the code uses them *)

(** [out.push_back(c)]. *)
Definition push_back (out : string) (c : ascii) : string :=
  (out ++ String c EmptyString)%string.

(** The line ends the source writes as [\r\n] and [\n]. *)
Definition LF : string := String "010"%char EmptyString.
Definition CRLF : string := String "013"%char LF.

(** [out.size()]. *)
Definition size (s : string) : Z := Z.of_nat (String.length s).

(** [s.empty()]. *)
Definition empty (s : string) : bool :=
  match s with
  | EmptyString => true
  | String _ _ => false
  end.

(** The value of a character read through [u_char]. *)
Definition u_char (c : ascii) : Z := Z.of_N (N_of_ascii c).

(** The character with a given code. *)
Definition char_of (z : Z) : ascii := ascii_of_N (Z.to_N z).

(** ** 32-bit [int] arithmetic *)

Module Int.

(** Reduction of an integer to the range of a 32-bit two's complement
    [int]. *)
Definition wrap (z : Z) : Z := (z + 2 ^ 31) mod 2 ^ 32 - 2 ^ 31.

(** [x + y] on [int]. *)
Definition add (x y : Z) : Z := wrap (x + y).

(** [x << n] on [int]. *)
Definition shl (x n : Z) : Z := wrap (Z.shiftl x n).

(** [x >> n] on [int] (arithmetic shift). *)
Definition shr (x n : Z) : Z := Z.shiftr x n.

End Int.

(** [(val << 8) + c], the value of [val] after one more byte [c] has been
    shifted in. *)
Abbreviation shift_in val c := (Int.add (Int.shl val 8) c).

(** ** base64_encode *)

Module Base64.

(** [static const std::string b]. *)
Definition b : string :=
  "ABCDEFGHIJKLMNOPQRSTUVWXYZabcdefghijklmnopqrstuvwxyz0123456789+/".

(** [b[i]]; [std::string::operator[]] yields the terminating NUL at
    [i = b.size()], and no index beyond that is ever formed. *)
Definition b_at (i : Z) : ascii :=
  match String.get (Z.to_nat i) b with
  | Some ch => ch
  | None => zero
  end.

(** The inner loop
    [while (valb >= 0) { out.push_back(b[(val >> valb) & 0x3F]); valb -= 6; }].
    Each turn lowers [valb] by 6, so [valb / 6 + 1] turns reach the exit
    test when [valb >= 0]; [drain_exits] below checks that the loop has
    indeed exited. *)
Fixpoint drain_loop (turns : nat) (val valb : Z) (out : string)
  : Z * string :=
  match turns with
  | O => (valb, out)
  | S turns' =>
      if 0 <=? valb
      then drain_loop turns' val (valb - 6)
             (push_back out (b_at (Z.land (Int.shr val valb) 63)))
      else (valb, out)
  end.

Definition drain (val valb : Z) (out : string) : Z * string :=
  drain_loop (Z.to_nat (valb / 6 + 1)) val valb out.

(** The body of [for (u_char c : in)], iterated over the input. *)
Fixpoint encode_loop (input : string) (val valb : Z) (out : string)
  : Z * Z * string :=
  match input with
  | EmptyString => (val, valb, out)
  | String c rest =>
      let val := Int.add (Int.shl val 8) (u_char c) in
      let valb := valb + 8 in
      let '(valb, out) := drain val valb out in
      encode_loop rest val valb out
  end.

(** [while (out.size() % 4) out.push_back('=')]; three turns always
    suffice, see [pad_exits]. *)
Fixpoint pad_loop (turns : nat) (out : string) : string :=
  match turns with
  | O => out
  | S turns' =>
      if size out mod 4 =? 0 then out
      else pad_loop turns' (push_back out "="%char)
  end.

Definition pad (out : string) : string := pad_loop 3 out.

(** [if (valb > -6) out.push_back(b[((val << 8) >> (valb + 8)) & 0x3F])]. *)
Definition flush (val valb : Z) (out : string) : string :=
  if -6 <? valb
  then push_back out (b_at (Z.land (Int.shr (Int.shl val 8) (valb + 8)) 63))
  else out.

Definition base64_encode (input : string) : string :=
  let '(val, valb, out) := encode_loop input 0 (-6) "" in
  pad (flush val valb out).

(** *** Standard Base64, as the specification words it

    The two definitions below do not come from the source: they state
    what "standard Base64" (RFC 4648, section 4) means, so that the
    source's encoder can be compared with it. *)

(** The four sextets of a full 3-byte group. *)
Definition sextet1 (x : Z) : Z := x / 4.
Definition sextet2 (x y : Z) : Z := (x mod 4) * 16 + y / 16.
Definition sextet3 (y z : Z) : Z := (y mod 16) * 4 + z / 64.
Definition sextet4 (z : Z) : Z := z mod 64.

(** Reference encoder: 3 input bytes give 4 characters; a final group of
    1 or 2 bytes is zero-extended and padded with [=]. *)
Fixpoint rfc4648_encode (input : string) : string :=
  match input with
  | EmptyString => EmptyString
  | String x EmptyString =>
      String (b_at (sextet1 (u_char x)))
        (String (b_at (sextet2 (u_char x) 0)) "==")
  | String x (String y EmptyString) =>
      String (b_at (sextet1 (u_char x)))
        (String (b_at (sextet2 (u_char x) (u_char y)))
           (String (b_at (sextet3 (u_char y) 0)) "="))
  | String x (String y (String z rest)) =>
      String (b_at (sextet1 (u_char x)))
        (String (b_at (sextet2 (u_char x) (u_char y)))
           (String (b_at (sextet3 (u_char y) (u_char z)))
              (String (b_at (sextet4 (u_char z)))
                 (rfc4648_encode rest))))
  end.

(** Position of a character in the alphabet [b]. *)
Fixpoint index_in (s : string) (c : ascii) (i : Z) : option Z :=
  match s with
  | EmptyString => None
  | String d rest => if Ascii.eqb c d then Some i else index_in rest c (i + 1)
  end.

Definition b_index (c : ascii) : option Z := index_in b c 0.

(** Reference decoder: groups of 4 characters; [=] only as the last one
    or two characters of the last group; anything else is rejected. *)
Fixpoint base64_decode (s : string) : option string :=
  match s with
  | EmptyString => Some EmptyString
  | String c1 (String c2 (String c3 (String c4 rest))) =>
      match b_index c1, b_index c2 with
      | Some v1, Some v2 =>
          let x := char_of (v1 * 4 + v2 / 16) in
          if Ascii.eqb c3 "=" then
            if Ascii.eqb c4 "=" && empty rest && (v2 mod 16 =? 0)
            then Some (String x EmptyString)
            else None
          else
            match b_index c3 with
            | Some v3 =>
                let y := char_of ((v2 mod 16) * 16 + v3 / 4) in
                if Ascii.eqb c4 "=" then
                  if empty rest && (v3 mod 4 =? 0)
                  then Some (String x (String y EmptyString))
                  else None
                else
                  match b_index c4 with
                  | Some v4 =>
                      let z := char_of ((v3 mod 4) * 64 + v4) in
                      match base64_decode rest with
                      | Some tail => Some (String x (String y (String z tail)))
                      | None => None
                      end
                  | None => None
                  end
            | None => None
            end
      | _, _ => None
      end
  | _ => None
  end.

(** A character of the alphabet [A-Z a-z 0-9 + /]. *)
Definition in_alphabet (c : ascii) : Prop := exists i, b_index c = Some i.

(** A string over the alphabet. *)
Fixpoint over_alphabet (s : string) : Prop :=
  match s with
  | EmptyString => True
  | String c rest => in_alphabet c /\ over_alphabet rest
  end.

End Base64.

(** ** What the client does to the outside world *)

Module Sys.

(** [std::cout] and [std::cerr]. *)
Inductive stream := Cout | Cerr.

(** One operand of [<<].  The sticky formatting state of a stream
    ([std::hex]) is not tracked: [Int] and [Hex] say how the source asks
    for the number to be shown at that place. *)
Inductive item :=
| Str (s : string)
| Int (z : Z)
| Hex (z : Z)
| Endl.

(** The system calls and library calls of ntrip_client.cpp, with their
    arguments of interest and their results. *)
Inductive event :=
| Getaddrinfo (host port : string) (status : Z)
| Socket (ret : Z)
| Connect (fd port ret : Z)
| SetNonBlocking (fd : Z)
| Send (fd : Z) (data : string) (ret : Z)
| Recv (fd : Z) (ret : Z)
| Close (fd : Z)
| Sleep (ms : Z)
| Print (to : stream) (items : list item)
| Spawn
| Join.

Definition trace := list event.

(** Values of <errno.h> on Linux, where [EWOULDBLOCK] is [EAGAIN]. *)
Definition EINTR : Z := 4.
Definition EAGAIN : Z := 11.
Definition EWOULDBLOCK : Z := 11.

(** Bounds of [int]. *)
Definition INT_MIN : Z := - 2 ^ 31.
Definition INT_MAX : Z := 2 ^ 31 - 1.

(** [isspace] in the C locale. *)
Definition isspace (c : ascii) : bool :=
  let n := u_char c in
  (n =? 32) || ((9 <=? n) && (n <=? 13)).

Definition digit_of (c : ascii) : option Z :=
  let n := u_char c in
  if (48 <=? n) && (n <=? 57) then Some (n - 48) else None.

Fixpoint skip_spaces (s : string) : string :=
  match s with
  | EmptyString => s
  | String c rest => if isspace c then skip_spaces rest else s
  end.

(** The longest run of decimal digits at the front of [s]; [None] when
    there is no digit. *)
Fixpoint digits (s : string) (acc : Z) (seen : bool) : option Z :=
  match s with
  | EmptyString => if seen then Some acc else None
  | String c rest =>
      match digit_of c with
      | Some d => digits rest (acc * 10 + d) true
      | None => if seen then Some acc else None
      end
  end.

(** [std::stoi(s)]: leading white space, an optional sign, decimal
    digits.  [None] stands for the exception it throws when no number can
    be read ([std::invalid_argument]) or when the number does not fit an
    [int] ([std::out_of_range]). *)
Definition stoi (s : string) : option Z :=
  let s := skip_spaces s in
  let '(negative, s) :=
    match s with
    | String "-" rest => (true, rest)
    | String "+" rest => (false, rest)
    | _ => (false, s)
    end in
  match digits s 0 false with
  | Some n =>
      let v := if negative then - n else n in
      if (INT_MIN <=? v) && (v <=? INT_MAX) then Some v else None
  | None => None
  end.

(** [htons(port)]: the port as an unsigned 16-bit quantity. *)
Definition htons (port : Z) : Z := port mod 2 ^ 16.

(** [pat] is at the front of [s]. *)
Fixpoint starts_with (pat s : string) : bool :=
  match pat, s with
  | EmptyString, _ => true
  | String p pat', String c s' => Ascii.eqb p c && starts_with pat' s'
  | String _ _, EmptyString => false
  end.

(** [s.find(pat)], counting positions from [pos]; [None] is
    [std::string::npos]. *)
Fixpoint find_from (pos : nat) (s pat : string) : option nat :=
  if starts_with pat s then Some pos
  else
    match s with
    | EmptyString => None
    | String _ rest => find_from (S pos) rest pat
    end.

Definition find (s pat : string) : option nat := find_from 0 s pat.

(** [x != std::string::npos]. *)
Definition is_pos (x : option nat) : bool :=
  match x with
  | Some _ => true
  | None => false
  end.

(** [pat] occurs somewhere in [s]. *)
Definition occurs_in (pat s : string) : Prop :=
  exists before behind, s = (before ++ pat ++ behind)%string.

(** [std::string(buffer, ret)]: the first [ret] bytes of the buffer. *)
Definition string_of_buffer (buffer : string) (ret : Z) : string :=
  substring 0 (Z.to_nat ret) buffer.

End Sys.

(** ** The class NtripClient *)

Module Client.
Import Sys.

Definition buffer_size : Z := 4096.
Definition socket_timeout : Z := 50.
Definition reporting_interval_ms : Z := 1000.

(** [std::thread thread_]: not joinable (default-constructed or joined),
    or joinable with [ThreadHandler] still to return, or joinable with
    [ThreadHandler] having returned [ret]. *)
Inductive thread_state :=
| NoThread
| ThreadRunning
| ThreadReturned (ret : bool).

(** The data members of ntrip_client.h. *)
Record NtripClient := mkNtripClient {
  host_ : string;
  port_ : string;
  mountpoint_ : string;
  username_ : string;
  password_ : string;
  sockfd_ : Z;
  gga_buffer_ : string;
  thread_ : thread_state;
  initialized_ : bool;
  connected_ : bool;
  authenticated_ : bool;
  running_ : bool
}.

(** Assignments to single members. *)
Definition set_sockfd (c : NtripClient) (v : Z) : NtripClient :=
  mkNtripClient (host_ c) (port_ c) (mountpoint_ c) (username_ c)
    (password_ c) v (gga_buffer_ c) (thread_ c) (initialized_ c)
    (connected_ c) (authenticated_ c) (running_ c).

Definition set_gga_buffer (c : NtripClient) (v : string) : NtripClient :=
  mkNtripClient (host_ c) (port_ c) (mountpoint_ c) (username_ c)
    (password_ c) (sockfd_ c) v (thread_ c) (initialized_ c)
    (connected_ c) (authenticated_ c) (running_ c).

Definition set_thread (c : NtripClient) (v : thread_state) : NtripClient :=
  mkNtripClient (host_ c) (port_ c) (mountpoint_ c) (username_ c)
    (password_ c) (sockfd_ c) (gga_buffer_ c) v (initialized_ c)
    (connected_ c) (authenticated_ c) (running_ c).

Definition set_connected (c : NtripClient) (v : bool) : NtripClient :=
  mkNtripClient (host_ c) (port_ c) (mountpoint_ c) (username_ c)
    (password_ c) (sockfd_ c) (gga_buffer_ c) (thread_ c) (initialized_ c)
    v (authenticated_ c) (running_ c).

Definition set_authenticated (c : NtripClient) (v : bool) : NtripClient :=
  mkNtripClient (host_ c) (port_ c) (mountpoint_ c) (username_ c)
    (password_ c) (sockfd_ c) (gga_buffer_ c) (thread_ c) (initialized_ c)
    (connected_ c) v (running_ c).

Definition set_running (c : NtripClient) (v : bool) : NtripClient :=
  mkNtripClient (host_ c) (port_ c) (mountpoint_ c) (username_ c)
    (password_ c) (sockfd_ c) (gga_buffer_ c) (thread_ c) (initialized_ c)
    (connected_ c) (authenticated_ c) v.

(** [NtripClient() = default], with the default member initializers. *)
Definition default_client : NtripClient :=
  mkNtripClient "" "" "" "" "" (-1) "" NoThread false false false false.

(** The constructor with connection details. *)
Definition construct (host port mountpoint username password : string)
  : NtripClient :=
  mkNtripClient host port mountpoint username password (-1) "" NoThread
    true false false false.

(** How a call can end: it returns a value, it leaves by an exception, or
    the turns granted to one of its loops are used up with the loop still
    going.  Each case carries the client as the call left it and the
    events of the call in order. *)
Inductive outcome (A : Type) : Type :=
| Returned (a : A) (c : NtripClient) (tr : trace)
| Threw (c : NtripClient) (tr : trace)
| Unfinished (c : NtripClient) (tr : trace).
Arguments Returned {A} a c tr.
Arguments Threw {A} c tr.
Arguments Unfinished {A} c tr.

(** The events [tr] happened before those of [o]. *)
Definition after {A : Type} (tr : trace) (o : outcome A) : outcome A :=
  match o with
  | Returned a c tr' => Returned a c (tr ++ tr')
  | Threw c tr' => Threw c (tr ++ tr')
  | Unfinished c tr' => Unfinished c (tr ++ tr')
  end.

(** Sequencing of two calls. *)
Definition bind {A B : Type} (m : outcome A)
  (k : A -> NtripClient -> outcome B) : outcome B :=
  match m with
  | Returned a c tr => after tr (k a c)
  | Threw c tr => Threw c tr
  | Unfinished c tr => Unfinished c tr
  end.

Definition events {A : Type} (o : outcome A) : trace :=
  match o with
  | Returned _ _ tr | Threw _ tr | Unfinished _ tr => tr
  end.

Definition client_of {A : Type} (o : outcome A) : NtripClient :=
  match o with
  | Returned _ c _ | Threw c _ | Unfinished c _ => c
  end.

(** *** Init, IsRunning, UpdateGGA, Cleanup *)

Definition Init (c : NtripClient)
  (host port mountpoint username password : string) : bool * NtripClient :=
  (true,
   mkNtripClient host port mountpoint username password (sockfd_ c)
     (gga_buffer_ c) (thread_ c) true (connected_ c) (authenticated_ c)
     (running_ c)).

Definition IsRunning (c : NtripClient) : bool := running_ c.

Definition UpdateGGA (c : NtripClient) (gga : string) : NtripClient :=
  set_gga_buffer c gga.

Definition Cleanup (c : NtripClient) : NtripClient * trace :=
  if 0 <? sockfd_ c
  then (set_sockfd c (-1), [Close (sockfd_ c)])
  else (c, []).

(** *** ThreadHandler *)

(** What one turn of the streaming loop meets: the result of [recv] with
    the buffer it filled and [errno] after it, the two readings of the
    steady clock (in nanoseconds; the second one is taken only when the
    interval has elapsed), the result of [send] should the turn send, and
    what the caller's thread does meanwhile to the members it shares with
    the loop: [UpdateGGA] before the turn reads [gga_buffer_], and the
    assignment [running_ = false] of [Stop], seen by the next test of the
    loop condition. *)
Record Tick := mkTick {
  tick_gga_update : option string;
  tick_recv_ret : Z;
  tick_recv_buf : string;
  tick_errno : Z;
  tick_clock : Z;
  tick_clock_restart : Z;
  tick_send_ret : Z;
  tick_stop_requested : bool
}.

(** How a piece of a loop body ends: control goes on ([Next], with the
    local the piece may have changed), or the function returns. *)
Inductive step (L : Type) : Type :=
| Next (local : L) (tr : trace)
| Return (ret : bool) (c : NtripClient) (tr : trace).
Arguments Next {L} local tr.
Arguments Return {L} ret c tr.

(** [duration_cast<milliseconds>(end_time - start_time).count()]. *)
Definition elapsed_ms (start_time end_time : Z) : Z :=
  Z.quot (end_time - start_time) 1000000.

(** The bytes printed after "Data received: ". *)
Definition hex_items (data : string) : list item :=
  map (fun ch => Hex (u_char ch)) (list_ascii_of_string data).

(** First half of the loop body: [recv] and the three-way test on its
    result. *)
Definition on_recv (tk : Tick) (c : NtripClient) : step unit :=
  let ret := tick_recv_ret tk in
  let recv := Recv (sockfd_ c) ret in
  if ret =? 0 then
    Next tt [recv; Print Cerr [Str "Remote socket closed"; Endl]]
  else if ret <? 0 then
    let errno := tick_errno tk in
    if negb (errno =? 0) && negb (errno =? EAGAIN)
       && negb (errno =? EWOULDBLOCK) && negb (errno =? EINTR)
    then
      let '(c', closing) := Cleanup c in
      Return false c'
        ([recv; Print Cerr [Str "Remote socket error, errno="; Int errno; Endl]]
           ++ closing)
    else Next tt [recv]
  else
    Next tt
      [recv;
       Print Cout
         ([Str "Data received: "]
            ++ hex_items (string_of_buffer (tick_recv_buf tk) ret)
            ++ [Endl])].

(** Second half: the reporting timer.  The local it may change is
    [start_time]. *)
Definition on_timer (tk : Tick) (start_time : Z) (c : NtripClient) : step Z :=
  let end_time := tick_clock tk in
  if reporting_interval_ms <=? elapsed_ms start_time end_time then
    let start_time := tick_clock_restart tk in
    if negb (empty (gga_buffer_ c)) then
      let ret := tick_send_ret tk in
      let send := Send (sockfd_ c) (gga_buffer_ c) ret in
      if ret <? 0 then
        let '(c', closing) := Cleanup c in
        Return false c'
          ([send; Print Cerr [Str "Error: Could not send GGA data to server"; Endl]]
             ++ closing)
      else Next start_time [send]
    else Next start_time []
  else Next start_time [].

(** The whole body of [while (running_)], up to the sleep. *)
Definition thread_body (tk : Tick) (start_time : Z) (c : NtripClient)
  : step Z :=
  match on_recv tk c with
  | Return ret c' tr => Return ret c' tr
  | Next _ tr =>
      match on_timer tk start_time c with
      | Return ret c' tr' => Return ret c' (tr ++ tr')
      | Next start_time' tr' => Next start_time' (tr ++ tr' ++ [Sleep 10])
      end
  end.

(** The caller's writes of one turn. *)
Definition caller_updates_gga (tk : Tick) (c : NtripClient) : NtripClient :=
  match tick_gga_update tk with
  | Some gga => UpdateGGA c gga
  | None => c
  end.

Definition caller_requests_stop (tk : Tick) (c : NtripClient) : NtripClient :=
  if tick_stop_requested tk then set_running c false else c.

(** [while (running_) { ... }] followed by the code after the loop.  The
    loop is still going when the ticks are used up with [running_] set. *)
Fixpoint thread_loop (ticks : list Tick) (start_time : Z) (c : NtripClient)
  : outcome bool :=
  if running_ c then
    match ticks with
    | [] => Unfinished c []
    | tk :: rest =>
        let c := caller_updates_gga tk c in
        match thread_body tk start_time c with
        | Return ret c' tr => Returned ret c' tr
        | Next start_time' tr =>
            after tr (thread_loop rest start_time' (caller_requests_stop tk c))
        end
    end
  else
    let '(c', closing) := Cleanup c in
    Returned true c'
      (closing ++ [Print Cout [Str "NtripClient service done."; Endl]]).

(** A failed entry check: message, [Cleanup], [return false]. *)
Definition refuse (msg : string) (c : NtripClient) : outcome bool :=
  let '(c', closing) := Cleanup c in
  Returned false c' (Print Cerr [Str msg; Endl] :: closing).

(** [clock] is the reading of the steady clock that initialises
    [start_time]. *)
Definition ThreadHandler (clock : Z) (ticks : list Tick) (c : NtripClient)
  : outcome bool :=
  if negb (initialized_ c) then refuse "Error: NtripClient not initialized" c
  else if negb (connected_ c) then refuse "Error: NtripClient not connected" c
  else if negb (authenticated_ c) then
    refuse "Error: NtripClient not authenticated" c
  else if sockfd_ c <? 0 then refuse "Error: Socket not created" c
  else
    after [Print Cout [Str "NtripClient service running..."; Endl]]
      (thread_loop ticks clock c).

(** *** Stop *)

(** [thread_.join()].  Joining waits for [ThreadHandler] to return; a
    handler that has not returned yet finds [running_] cleared at its next
    test of the loop condition and takes no further turn.  Joining a
    thread that is not joinable throws [std::system_error]. *)
Definition join (c : NtripClient) : outcome unit :=
  match thread_ c with
  | NoThread => Threw c []
  | ThreadReturned _ => Returned tt (set_thread c NoThread) [Join]
  | ThreadRunning =>
      bind (ThreadHandler 0 [] c)
        (fun _ c' => Returned tt (set_thread c' NoThread) [Join])
  end.

Definition Stop (c : NtripClient) : outcome unit :=
  if running_ c then
    let c := set_running c false in
    bind (join c) (fun _ c => Returned tt c [Close (sockfd_ c)])
  else Returned tt c [].

(** *** Run *)

(** What the network answers during one call of [Run]: the results of
    [getaddrinfo], [socket], [connect] and of the [send] of the request;
    for the [i]-th [recv] of the handshake its result and the buffer it
    filled; the result of the [send] of the GGA sentence. *)
Record RunEnv := mkRunEnv {
  getaddrinfo_status : Z;
  socket_ret : Z;
  connect_ret : Z;
  send_request_ret : Z;
  recv_ret : nat -> Z;
  recv_buf : nat -> string;
  send_gga_ret : Z
}.

Definition full_request (c : NtripClient) : string :=
  (let user_pass := username_ c ++ ":" ++ password_ c in
   let user_pass_b64 := Base64.base64_encode user_pass in
   let request := "GET /" ++ mountpoint_ c ++ " HTTP/1.1" ++ CRLF in
   let user_agent :=
     "User-Agent: NTRIP NTRIPClient/1.2.0.b431661" ++ CRLF in
   let authorization := "Authorization: Basic " ++ user_pass_b64 ++ CRLF in
   let request_end := CRLF in
   request ++ user_agent ++ authorization ++ request_end)%string.

(** How a turn of the handshake loop ends. *)
Inductive flow :=
| FlowNext (c : NtripClient) (tr : trace)
| FlowBreak (c : NtripClient) (tr : trace)
| FlowReturn (ret : bool) (c : NtripClient) (tr : trace).

(** The body of [while (timeout < socket_timeout)] at its [i]-th turn, up
    to the sleep.  It never assigns [timeout]. *)
Definition handshake_body (env : RunEnv) (i : nat) (c : NtripClient) : flow :=
  let ret := recv_ret env i in
  let recv := Recv (sockfd_ c) ret in
  if 0 <? ret then
    let result := string_of_buffer (recv_buf env i) ret in
    if is_pos (find result "HTTP/1.1 200 OK")
       || is_pos (find result "ICY 200 OK")
    then
      let c := set_authenticated c true in
      if negb (empty (gga_buffer_ c)) then
        let ret := send_gga_ret env in
        let send := Send (sockfd_ c) (gga_buffer_ c) ret in
        if ret <=? 0 then
          FlowReturn false c
            [recv; send;
             Print Cerr [Str "Error: Could not send GGA data to server"; Endl];
             Close (sockfd_ c)]
        else FlowBreak c [recv; send; Print Cout [Str ("send gga sucess" ++ LF)%string]]
      else FlowBreak c [recv; Print Cout [Str ("gga buff empty" ++ LF)%string]]
    else
      FlowNext c
        [recv; Print Cerr [Str "Error: Request result: "; Str result; Endl]]
  else if ret =? 0 then
    FlowReturn false c
      [recv; Print Cerr [Str "Error: Remote socket closed"; Endl];
       Close (sockfd_ c)]
  else FlowNext c [recv; Print Cout [Str "ret:"; Int ret; Endl]].

(** How the handshake loop is left: by [return], or past its end (by
    [break] or by the loop condition) with the value [timeout] then has. *)
Inductive leave :=
| ByReturn (ret : bool)
| PastLoop (timeout : Z).

Fixpoint handshake_loop (turns : nat) (env : RunEnv) (i : nat) (timeout : Z)
  (c : NtripClient) : outcome leave :=
  if timeout <? socket_timeout then
    match turns with
    | O => Unfinished c []
    | S turns' =>
        match handshake_body env i c with
        | FlowReturn ret c' tr => Returned (ByReturn ret) c' tr
        | FlowBreak c' tr => Returned (PastLoop timeout) c' tr
        | FlowNext c' tr =>
            after (tr ++ [Sleep 100])
              (handshake_loop turns' env (S i) timeout c')
        end
    end
  else Returned (PastLoop timeout) c [].

(** The part of [Run] after the handshake loop. *)
Definition finish_run (how : leave) (c : NtripClient) : outcome bool :=
  match how with
  | ByReturn ret => Returned ret c []
  | PastLoop timeout =>
      if socket_timeout <=? timeout then
        Returned false c
          [Print Cout
             [Str "Error: NtripCaster["; Str (host_ c); Str ":";
              Str (port_ c); Str " "; Str (username_ c); Str " ";
              Str (password_ c); Str " "; Str (mountpoint_ c);
              Str "] access failed"; Endl];
           Close (sockfd_ c)]
      else
        let c := set_running c true in
        let c := set_thread c ThreadRunning in
        Returned true c [Spawn]
  end.

(** The part of [Run] from [int timeout = 0] on. *)
Definition authenticate (turns : nat) (env : RunEnv) (c : NtripClient)
  : outcome bool :=
  let timeout := 0 in
  bind (handshake_loop turns env 0%nat timeout c) finish_run.

(** The part of [Run] after the optional [Stop]. *)
Definition connect_and_authenticate (turns : nat) (env : RunEnv)
  (c : NtripClient) : outcome bool :=
  match stoi (port_ c) with
  | None => Threw c []
  | Some port =>
      let status := getaddrinfo_status env in
      let resolve := Getaddrinfo (host_ c) (port_ c) status in
      if negb (status =? 0) then
        Returned false c
          [resolve;
           Print Cerr [Str "Error: Could not resolve host address"; Endl]]
      else
        let c := set_sockfd c (socket_ret env) in
        let socket := Socket (sockfd_ c) in
        if sockfd_ c <? 0 then
          Returned false c
            [resolve; socket;
             Print Cerr [Str "Error: Could not create socket"; Endl]]
        else
          let connect := Connect (sockfd_ c) (htons port) (connect_ret env) in
          if connect_ret env <? 0 then
            Returned false c
              [resolve; socket; connect;
               Print Cerr [Str "Error: Could not connect to server"; Endl];
               Close (sockfd_ c)]
          else
            let c := set_connected c true in
            let ret := send_request_ret env in
            let send := Send (sockfd_ c) (full_request c) ret in
            if ret <=? 0 then
              Returned false c
                [resolve; socket; connect; SetNonBlocking (sockfd_ c); send;
                 Print Cerr
                   [Str "Error: Could not send request to server"; Endl];
                 Close (sockfd_ c)]
            else
              after
                [resolve; socket; connect; SetNonBlocking (sockfd_ c); send]
                (authenticate turns env c)
  end.

(** [if (IsRunning()) { Stop(); }]. *)
Definition restart (c : NtripClient) : outcome unit :=
  if IsRunning c then Stop c else Returned tt c [].

(** [turns] bounds the turns of the handshake loop that are followed. *)
Definition Run (turns : nat) (env : RunEnv) (c : NtripClient) : outcome bool :=
  bind (restart c) (fun _ c => connect_and_authenticate turns env c).

(** *** Notions the properties are stated with *)

(** The chunk the [i]-th [recv] of the handshake delivered. *)
Definition chunk (env : RunEnv) (i : nat) : string :=
  string_of_buffer (recv_buf env i) (recv_ret env i).

(** A chunk that announces success. *)
Definition success_response (result : string) : Prop :=
  occurs_in "HTTP/1.1 200 OK" result \/ occurs_in "ICY 200 OK" result.

(** The [i]-th turn of the handshake neither succeeds nor finds the
    connection closed: nothing was received, or something else than a
    success response. *)
Definition keeps_polling (env : RunEnv) (i : nat) : Prop :=
  recv_ret env i < 0
  \/ (0 < recv_ret env i /\ ~ success_response (chunk env i)).

(** The network lets [Run] get as far as the handshake loop. *)
Definition handshake_reached (env : RunEnv) (c : NtripClient) : Prop :=
  stoi (port_ c) <> None
  /\ getaddrinfo_status env = 0
  /\ 0 <= socket_ret env
  /\ 0 <= connect_ret env
  /\ 0 < send_request_ret env.

(** The client and the events at that point. *)
Definition connected_client (env : RunEnv) (c : NtripClient) : NtripClient :=
  set_connected (set_sockfd c (socket_ret env)) true.

Definition port_number (c : NtripClient) : Z :=
  match stoi (port_ c) with
  | Some port => htons port
  | None => 0
  end.

Definition setup_events (env : RunEnv) (c : NtripClient) : trace :=
  [Getaddrinfo (host_ c) (port_ c) (getaddrinfo_status env);
   Socket (socket_ret env);
   Connect (socket_ret env) (port_number c) (connect_ret env);
   SetNonBlocking (socket_ret env);
   Send (socket_ret env) (full_request (connected_client env c))
     (send_request_ret env)].

(** The events of the [i]-th turn of the handshake. *)
Definition turn_events (env : RunEnv) (i : nat) (c : NtripClient) : trace :=
  match handshake_body env i c with
  | FlowNext _ tr | FlowBreak _ tr | FlowReturn _ _ tr => tr
  end.

(** The events of [k] turns from the [i]-th on, each followed by its
    sleep. *)
Fixpoint polling_events (env : RunEnv) (c : NtripClient) (i k : nat) : trace :=
  match k with
  | O => []
  | S k' =>
      turn_events env i c ++ [Sleep 100] ++ polling_events env c (S i) k'
  end.

(** The time slept in a trace, in milliseconds. *)
Fixpoint slept (tr : trace) : Z :=
  match tr with
  | [] => 0
  | Sleep ms :: rest => ms + slept rest
  | _ :: rest => slept rest
  end.

(** A [close] occurs in a trace. *)
Fixpoint closes (tr : trace) : bool :=
  match tr with
  | [] => false
  | Close _ :: _ => true
  | _ :: rest => closes rest
  end.

(** The members the handshake loop leaves alone. *)
Definition same_connection (c c' : NtripClient) : Prop :=
  sockfd_ c' = sockfd_ c
  /\ connected_ c' = connected_ c
  /\ running_ c' = running_ c.

(** The [errno] values after which a failed [recv] of the streaming loop
    is passed over. *)
Definition passed_over (errno : Z) : Prop :=
  errno = 0 \/ errno = EAGAIN \/ errno = EWOULDBLOCK \/ errno = EINTR.

(** The two fatal conditions of a turn of the streaming loop: [recv]
    failed with an [errno] that is not passed over; the report is due,
    there is one, and its [send] failed. *)
Definition recv_fatal (tk : Tick) : Prop :=
  tick_recv_ret tk < 0 /\ ~ passed_over (tick_errno tk).

Definition send_fatal (tk : Tick) (start_time : Z) (c : NtripClient) : Prop :=
  reporting_interval_ms <= elapsed_ms start_time (tick_clock tk)
  /\ gga_buffer_ c <> ""
  /\ tick_send_ret tk < 0.

(** *** States a client can be in *)

(** The states a client object goes through: construction, the public
    methods called by its owner, and the return of [ThreadHandler] on the
    thread started by [Run]. *)
Inductive reachable : NtripClient -> Prop :=
| reach_default : reachable default_client
| reach_construct host port mountpoint username password :
    reachable (construct host port mountpoint username password)
| reach_Init c host port mountpoint username password :
    reachable c ->
    reachable (snd (Init c host port mountpoint username password))
| reach_UpdateGGA c gga :
    reachable c -> reachable (UpdateGGA c gga)
| reach_Run c turns env ret c' tr :
    reachable c ->
    Run turns env c = Returned ret c' tr ->
    reachable c'
| reach_Stop c c' tr :
    reachable c ->
    Stop c = Returned tt c' tr ->
    reachable c'
| reach_ThreadHandler c clock ticks ret c' tr :
    reachable c ->
    thread_ c = ThreadRunning ->
    ThreadHandler clock ticks c = Returned ret c' tr ->
    reachable (set_thread c' (ThreadReturned ret)).

End Client.

(** ** Concrete clients and peers *)

Module Scenario.
Import Sys Client.

(** A client as [main] sets one up, without and with a position report. *)
Definition rover : NtripClient :=
  snd (Init default_client "caster.example.org" "2101" "RTCM33" "user"
         "secret").

Definition rover_with_report : NtripClient :=
  UpdateGGA rover "$GPGGA,1*00".

(** A network on which name resolution, [socket] (handle 3), [connect]
    and the [send] of the request succeed. *)
Definition network (recv : nat -> Z) (buf : nat -> string) (send_gga : Z)
  : RunEnv :=
  mkRunEnv 0 3 0 120 recv buf send_gga.

(** A peer that never sends anything: every [recv] fails ([EAGAIN]). *)
Definition silent_peer : RunEnv :=
  network (fun _ => -1) (fun _ => "") 0.

(** A peer that closes the connection after two empty polls. *)
Definition closing_peer : RunEnv :=
  network (fun i => if (i <? 2)%nat then -1 else 0) (fun _ => "") 0.

(** A peer that accepts at the second poll; [send_gga] is the result of
    the [send] of the position report. *)
Definition ok_reply : string := ("ICY 200 OK" ++ CRLF)%string.

Definition accepting_peer (send_gga : Z) : RunEnv :=
  network (fun i => if (i <? 1)%nat then -1 else 12) (fun _ => ok_reply)
    send_gga.

(** A peer that refuses at the first poll. *)
Definition refusal : string := ("HTTP/1.1 401 Unauthorized" ++ CRLF)%string.

Definition refusing_peer : RunEnv :=
  network (fun _ => 27) (fun _ => refusal) 0.

(** The client as a successful [Run] leaves it, its thread started. *)
Definition streaming_rover : NtripClient :=
  mkNtripClient "caster.example.org" "2101" "RTCM33" "user" "secret" 3
    "$GPGGA,1*00" ThreadRunning true true true true.

(** Turns of the streaming loop, 10 ms after its start: [recv] fails
    with [errno], nothing to report yet. *)
Definition failed_recv (errno : Z) : Tick :=
  mkTick None (-1) "" errno 10000000 10000000 0 false.

(** [recv] returns 0: the peer has closed. *)
Definition end_of_stream : Tick :=
  mkTick None 0 "" 0 10000000 10000000 0 false.

(** Nothing received, the report is due (1 s after the start) and its
    [send] has the result [ret]. *)
Definition report_due (ret : Z) : Tick :=
  mkTick None (-1) "" EAGAIN 1000000000 1000000000 ret false.

(** [ECONNRESET] of <errno.h> on Linux. *)
Definition ECONNRESET : Z := 104.

(** The same accepting peer for a process whose lowest free descriptor
    is 0 (standard input closed), so that [socket] returns the handle
    0. *)
Definition accepting_peer_on_handle_zero : RunEnv :=
  mkRunEnv 0 0 0 120 (fun i => if (i <? 1)%nat then -1 else 12)
    (fun _ => ok_reply) 12.

(** The client as a successful [Run] on that network leaves it. *)
Definition streaming_on_handle_zero : NtripClient :=
  mkNtripClient "caster.example.org" "2101" "RTCM33" "user" "secret" 0
    "$GPGGA,1*00" ThreadRunning true true true true.

End Scenario.

(** ** What is observed of a call *)

Module Observe.
Import Sys Client.

(** The destructor: [if (IsRunning()) { Stop(); }]. *)
Definition destroy (c : NtripClient) : outcome unit :=
  if IsRunning c then Stop c else Returned tt c [].

(** How often [close(fd)] occurs in a trace. *)
Fixpoint close_count (fd : Z) (tr : trace) : nat :=
  match tr with
  | [] => 0%nat
  | Close fd' :: rest =>
      if fd' =? fd then S (close_count fd rest) else close_count fd rest
  | _ :: rest => close_count fd rest
  end.

(** The buffers handed to [send], in order. *)
Fixpoint sent (tr : trace) : list string :=
  match tr with
  | [] => []
  | Send _ data _ :: rest => data :: sent rest
  | _ :: rest => sent rest
  end.

(** The number of calls of [recv]. *)
Fixpoint recv_count (tr : trace) : nat :=
  match tr with
  | [] => 0%nat
  | Recv _ _ :: rest => S (recv_count rest)
  | _ :: rest => recv_count rest
  end.

(** The connection details, the initialised flag and the report buffer
    are the same in [c'] as in [c]. *)
Definition same_settings (c c' : NtripClient) : Prop :=
  host_ c' = host_ c
  /\ port_ c' = port_ c
  /\ mountpoint_ c' = mountpoint_ c
  /\ username_ c' = username_ c
  /\ password_ c' = password_ c
  /\ initialized_ c' = initialized_ c
  /\ gga_buffer_ c' = gga_buffer_ c.

(** The four entry checks of [ThreadHandler] pass. *)
Definition entry_checks (c : NtripClient) : Prop :=
  initialized_ c = true
  /\ connected_ c = true
  /\ authenticated_ c = true
  /\ 0 <= sockfd_ c.




End Observe.

(** * Properties *)

(** ** Strings *)

Lemma append_assoc (s1 s2 s3 : string) :
  ((s1 ++ s2) ++ s3)%string = (s1 ++ (s2 ++ s3))%string.
Proof.
  induction s1 as [|c s1 IH]; simpl; [reflexivity|].
  now rewrite IH.
Qed.

Lemma append_empty_r (s : string) : (s ++ "")%string = s.
Proof.
  induction s as [|c s IH]; simpl; [reflexivity|].
  now rewrite IH.
Qed.

Lemma length_append (s1 s2 : string) :
  String.length (s1 ++ s2) = (String.length s1 + String.length s2)%nat.
Proof.
  induction s1 as [|c s1 IH]; simpl; [reflexivity|].
  now rewrite IH.
Qed.

Lemma size_push_back (out : string) (c : ascii) :
  size (push_back out c) = size out + 1.
Proof.
  unfold size, push_back. rewrite length_append. simpl. lia.
Qed.

Lemma size_nonneg (s : string) : 0 <= size s.
Proof. unfold size. lia. Qed.

Lemma u_char_range (c : ascii) : 0 <= u_char c < 256.
Proof.
  unfold u_char.
  pose proof (N_ascii_bounded c) as Hb.
  lia.
Qed.

Lemma char_of_u_char (c : ascii) : char_of (u_char c) = c.
Proof.
  unfold char_of, u_char. rewrite N2Z.id. apply ascii_N_embedding.
Qed.

(** Strings can be taken apart three characters at a time. *)
Lemma string_ind3 (P : string -> Prop) :
  P "" ->
  (forall x, P (String x "")) ->
  (forall x y, P (String x (String y ""))) ->
  (forall x y z rest, P rest -> P (String x (String y (String z rest)))) ->
  forall s, P s.
Proof.
  intros H0 H1 H2 H3.
  assert (forall s, P s /\ (forall x, P (String x s))
                    /\ (forall x y, P (String x (String y s)))) as H.
  { induction s as [|c s (IHa & IHb & IHc)].
    - auto.
    - repeat split; auto. }
  intro s. apply H.
Qed.

(** ** 32-bit arithmetic: what the encoder relies on *)

(** Wrapping changes a number by a multiple of [2^32]. *)
Lemma wrap_congruent (z : Z) : exists k, Int.wrap z = z + k * 4294967296.
Proof.
  unfold Int.wrap.
  exists (- ((z + 2 ^ 31) / 2 ^ 32)).
  change (2 ^ 31) with 2147483648. change (2 ^ 32) with 4294967296.
  pose proof (Z.div_mod (z + 2147483648) 4294967296).
  lia.
Qed.

(** One turn of the outer loop: [val = (val << 8) + c], up to a multiple
    of [2^32]. *)
Lemma shift_in_congruent (val c : Z) :
  exists k, Int.add (Int.shl val 8) c = val * 256 + c + k * 4294967296.
Proof.
  unfold Int.add, Int.shl.
  rewrite Z.shiftl_mul_pow2 by lia. change (2 ^ 8) with 256.
  destruct (wrap_congruent (val * 256)) as [k1 H1].
  destruct (wrap_congruent (Int.wrap (val * 256) + c)) as [k2 H2].
  exists (k1 + k2). lia.
Qed.

(** [(v >> n) & 0x3F] through division. *)
Lemma sextet_div (v n : Z) :
  0 <= n -> Z.land (Int.shr v n) 63 = (v / 2 ^ n) mod 64.
Proof.
  intro Hn. unfold Int.shr.
  change 63 with (Z.ones 6).
  rewrite Z.land_ones by lia.
  now rewrite Z.shiftr_div_pow2 by lia.
Qed.

Lemma first_sextet (val x : Z) :
  0 <= x < 256 ->
  Z.land (Int.shr (shift_in val x) 2) 63 = Base64.sextet1 x.
Proof.
  intro Hx.
  rewrite sextet_div by lia. unfold Base64.sextet1.
  destruct (shift_in_congruent val x) as [k1 H1].
  rewrite H1. change (2 ^ 2) with 4.
  Z.div_mod_to_equations. lia.
Qed.

Lemma second_sextet (val x y : Z) :
  0 <= x < 256 -> 0 <= y < 256 ->
  Z.land (Int.shr (shift_in (shift_in val x) y) 4) 63 = Base64.sextet2 x y.
Proof.
  intros Hx Hy.
  rewrite sextet_div by lia. unfold Base64.sextet2.
  destruct (shift_in_congruent val x) as [k1 H1].
  destruct (shift_in_congruent (shift_in val x) y) as [k2 H2].
  rewrite H2, H1. change (2 ^ 4) with 16.
  Z.div_mod_to_equations. lia.
Qed.

Lemma third_sextet (val y z : Z) :
  0 <= y < 256 -> 0 <= z < 256 ->
  Z.land (Int.shr (shift_in (shift_in val y) z) 6) 63 = Base64.sextet3 y z.
Proof.
  intros Hy Hz.
  rewrite sextet_div by lia. unfold Base64.sextet3.
  destruct (shift_in_congruent val y) as [k2 H2].
  destruct (shift_in_congruent (shift_in val y) z) as [k3 H3].
  rewrite H3, H2. change (2 ^ 6) with 64.
  Z.div_mod_to_equations. lia.
Qed.

Lemma fourth_sextet (val z : Z) :
  0 <= z < 256 ->
  Z.land (Int.shr (shift_in val z) 0) 63 = Base64.sextet4 z.
Proof.
  intro Hz.
  rewrite sextet_div by lia. unfold Base64.sextet4.
  destruct (shift_in_congruent val z) as [k3 H3].
  rewrite H3. change (2 ^ 0) with 1.
  Z.div_mod_to_equations. lia.
Qed.

(** The sextet flushed after one byte of a final group. *)
Lemma flushed_after_one (val x : Z) :
  0 <= x < 256 ->
  Z.land (Int.shr (Int.shl (shift_in val x) 8) (-4 + 8)) 63
  = Base64.sextet2 x 0.
Proof.
  intro Hx.
  change (-4 + 8) with 4.
  rewrite sextet_div by lia. unfold Base64.sextet2.
  destruct (shift_in_congruent val x) as [k1 H1].
  unfold Int.shl at 1. rewrite Z.shiftl_mul_pow2 by lia.
  destruct (wrap_congruent (shift_in val x * 2 ^ 8)) as [k H]. rewrite H, H1.
  change (2 ^ 4) with 16. change (2 ^ 8) with 256.
  Z.div_mod_to_equations. lia.
Qed.

(** The sextet flushed after two bytes of a final group. *)
Lemma flushed_after_two (val x y : Z) :
  0 <= y < 256 ->
  Z.land (Int.shr (Int.shl (shift_in (shift_in val x) y) 8) (-2 + 8)) 63
  = Base64.sextet3 y 0.
Proof.
  intro Hy.
  change (-2 + 8) with 6.
  rewrite sextet_div by lia. unfold Base64.sextet3.
  destruct (shift_in_congruent (shift_in val x) y) as [k2 H2].
  unfold Int.shl at 1. rewrite Z.shiftl_mul_pow2 by lia.
  destruct (wrap_congruent (shift_in (shift_in val x) y * 2 ^ 8)) as [k H].
  rewrite H, H2.
  change (2 ^ 6) with 64. change (2 ^ 8) with 256.
  generalize (shift_in val x). intro val1.
  replace ((val1 * 256 + y + k2 * 4294967296) * 256 + k * 4294967296)
    with ((val1 * 1024 + k2 * 17179869184 + k * 67108864 + 4 * y) * 64)
    by ring.
  rewrite Z.div_mul by lia.
  Z.div_mod_to_equations. lia.
Qed.

(** ** The alphabet table *)

Lemma table_checked :
  forallb
    (fun n =>
       let i := Z.of_nat n in
       match Base64.b_index (Base64.b_at i) with
       | Some j => j =? i
       | None => false
       end
       && negb (Ascii.eqb (Base64.b_at i) "="))
    (seq 0 64) = true.
Proof. vm_compute. reflexivity. Qed.

(** [b_index] inverts [b_at] on the 64 sextets, and [=] is not in the
    table. *)
Lemma table_inverse (i : Z) :
  0 <= i < 64 ->
  Base64.b_index (Base64.b_at i) = Some i
  /\ Ascii.eqb (Base64.b_at i) "=" = false.
Proof.
  intro Hi.
  pose proof table_checked as H.
  rewrite forallb_forall in H.
  specialize (H (Z.to_nat i)).
  rewrite in_seq in H.
  cbv zeta in H. rewrite Z2Nat.id in H by lia.
  assert (Hin : (0 <= Z.to_nat i < 0 + 64)%nat) by lia.
  specialize (H Hin). apply andb_true_iff in H. destruct H as [H1 H2].
  split.
  - destruct (Base64.b_index (Base64.b_at i)) as [j|]; [|discriminate].
    apply Z.eqb_eq in H1. now subst.
  - now apply negb_true_iff in H2.
Qed.

Lemma b_at_in_alphabet (i : Z) : 0 <= i < 64 -> Base64.in_alphabet (Base64.b_at i).
Proof. intro Hi. exists i. now apply table_inverse. Qed.

Lemma sextet1_range (x : Z) : 0 <= x < 256 -> 0 <= Base64.sextet1 x < 64.
Proof. intro. unfold Base64.sextet1. Z.div_mod_to_equations. lia. Qed.

Lemma sextet2_range (x y : Z) :
  0 <= x < 256 -> 0 <= y < 256 -> 0 <= Base64.sextet2 x y < 64.
Proof. intros. unfold Base64.sextet2. Z.div_mod_to_equations. lia. Qed.

Lemma sextet3_range (x y : Z) :
  0 <= x < 256 -> 0 <= y < 256 -> 0 <= Base64.sextet3 x y < 64.
Proof. intros. unfold Base64.sextet3. Z.div_mod_to_equations. lia. Qed.

Lemma sextet4_range (x : Z) : 0 <= x < 256 -> 0 <= Base64.sextet4 x < 64.
Proof. intro. unfold Base64.sextet4. Z.div_mod_to_equations. lia. Qed.

Lemma zero_byte : 0 <= 0 < 256.
Proof. lia. Qed.

Create HintDb b64.

#[local] Hint Resolve u_char_range zero_byte sextet1_range sextet2_range
  sextet3_range sextet4_range : b64.

(** ** The loops of the encoder leave by their exit tests *)

(** After [drain] the test [valb >= 0] of the inner loop fails. *)
Lemma drain_exits (val valb : Z) (out : string) :
  fst (Base64.drain val valb out) < 0.
Proof.
  unfold Base64.drain.
  destruct (Z.ltb_spec valb 0) as [Hneg|Hpos].
  - assert (Z.to_nat (valb / 6 + 1) = 0%nat \/ exists n, Z.to_nat (valb / 6 + 1) = S n)
      as [E|[n E]] by (destruct (Z.to_nat (valb / 6 + 1)); eauto).
    + rewrite E. simpl. lia.
    + rewrite E. simpl.
      destruct (Z.leb_spec 0 valb); [lia | simpl; lia].
  - remember (Z.to_nat (valb / 6 + 1)) as n eqn:En.
    assert (Hn : valb < 6 * Z.of_nat n).
    { subst n. rewrite Z2Nat.id by (Z.div_mod_to_equations; lia).
      Z.div_mod_to_equations. lia. }
    clear En. revert valb out Hpos Hn.
    induction n as [|n IH]; intros valb out Hpos Hn.
    + lia.
    + simpl. destruct (Z.leb_spec 0 valb) as [_|Hlt]; [|lia].
      destruct (Z.ltb_spec (valb - 6) 0) as [Hneg|Hpos'].
      * destruct n as [|n]; simpl; [lia|].
        destruct (Z.leb_spec 0 (valb - 6)); [lia | simpl; lia].
      * apply IH; lia.
Qed.

(** The three positions the inner loop is entered at. *)
Lemma drain_2 (val : Z) (out : string) :
  Base64.drain val 2 out
  = (-4, push_back out (Base64.b_at (Z.land (Int.shr val 2) 63))).
Proof. reflexivity. Qed.

Lemma drain_4 (val : Z) (out : string) :
  Base64.drain val 4 out
  = (-2, push_back out (Base64.b_at (Z.land (Int.shr val 4) 63))).
Proof. reflexivity. Qed.

Lemma drain_6 (val : Z) (out : string) :
  Base64.drain val 6 out
  = (-6,
     push_back
       (push_back out (Base64.b_at (Z.land (Int.shr val 6) 63)))
       (Base64.b_at (Z.land (Int.shr val 0) 63))).
Proof. reflexivity. Qed.

(** After [pad] the test [out.size() % 4] of the padding loop fails. *)
Lemma pad_exits (out : string) : size (Base64.pad out) mod 4 = 0.
Proof.
  unfold Base64.pad. simpl.
  destruct (Z.eqb_spec (size out mod 4) 0) as [|H0]; [assumption|].
  destruct (Z.eqb_spec (size (push_back out "=") mod 4) 0) as [|H1];
    [assumption|].
  destruct (Z.eqb_spec (size (push_back (push_back out "=") "=") mod 4) 0)
    as [|H2]; [assumption|].
  rewrite !size_push_back in *.
  Z.div_mod_to_equations. lia.
Qed.

Lemma pad_full (out : string) : size out mod 4 = 0 -> Base64.pad out = out.
Proof.
  intro H. unfold Base64.pad. simpl. now rewrite H.
Qed.

Lemma pad_one (out : string) :
  size out mod 4 = 3 -> Base64.pad out = (out ++ "=")%string.
Proof.
  intro H. unfold Base64.pad. simpl.
  rewrite H. simpl.
  replace (size (push_back out "=") mod 4) with 0
    by (rewrite size_push_back; Z.div_mod_to_equations; lia).
  reflexivity.
Qed.

Lemma pad_two (out : string) :
  size out mod 4 = 2 -> Base64.pad out = (out ++ "==")%string.
Proof.
  intro H. unfold Base64.pad. simpl.
  rewrite H. simpl.
  replace (size (push_back out "=") mod 4) with 3
    by (rewrite size_push_back; Z.div_mod_to_equations; lia).
  simpl.
  replace (size (push_back (push_back out "=") "=") mod 4) with 0
    by (rewrite !size_push_back; Z.div_mod_to_equations; lia).
  unfold push_back. now rewrite append_assoc.
Qed.

(** ** The encoder computes standard Base64 *)

(** A full group of three bytes, entered with [valb = -6], appends its four
    characters and comes back to [valb = -6]. *)
Lemma encode_loop_group (x y z : ascii) (rest : string) (val : Z)
  (out : string) :
  exists val',
    Base64.encode_loop (String x (String y (String z rest))) val (-6) out
    = Base64.encode_loop rest val' (-6)
        (out ++ String (Base64.b_at (Base64.sextet1 (u_char x)))
           (String (Base64.b_at (Base64.sextet2 (u_char x) (u_char y)))
              (String (Base64.b_at (Base64.sextet3 (u_char y) (u_char z)))
                 (String (Base64.b_at (Base64.sextet4 (u_char z))) ""))))%string.
Proof.
  eexists.
  cbn [Base64.encode_loop].
  change (-6 + 8) with 2. rewrite drain_2.
  change (-4 + 8) with 4. rewrite drain_4.
  change (-2 + 8) with 6. rewrite drain_6.
  rewrite first_sextet, second_sextet, third_sextet, fourth_sextet
    by auto with b64.
  unfold push_back. rewrite !append_assoc. simpl.
  reflexivity.
Qed.

(** Taking [(a, b, c) = (v, vb, o)] apart. *)
Ltac split_triple H :=
  apply pair_equal_spec in H; destruct H as [H <-];
  apply pair_equal_spec in H; destruct H as [<- <-].

Lemma encode_loop_rfc4648 (input : string) :
  forall (val : Z) (out : string) (v vb : Z) (o : string),
    size out mod 4 = 0 ->
    Base64.encode_loop input val (-6) out = (v, vb, o) ->
    Base64.pad (Base64.flush v vb o)
    = (out ++ Base64.rfc4648_encode input)%string.
Proof.
  induction input as [| x | x y | x y z rest IH] using string_ind3;
    intros val out v vb o Hout Hloop.
  - (* no byte left: nothing to flush, nothing to pad *)
    simpl in Hloop. split_triple Hloop.
    unfold Base64.flush. simpl.
    rewrite append_empty_r. now apply pad_full.
  - (* one byte left: one character, a flushed one, two pads *)
    cbn [Base64.encode_loop] in Hloop.
    change (-6 + 8) with 2 in Hloop. rewrite drain_2 in Hloop.
    split_triple Hloop.
    unfold Base64.flush. change (-6 <? -4) with true. cbv iota.
    rewrite first_sextet, flushed_after_one by auto with b64.
    rewrite pad_two.
    + unfold push_back. rewrite !append_assoc. reflexivity.
    + rewrite !size_push_back. Z.div_mod_to_equations. lia.
  - (* two bytes left: two characters, a flushed one, one pad *)
    cbn [Base64.encode_loop] in Hloop.
    change (-6 + 8) with 2 in Hloop. rewrite drain_2 in Hloop.
    change (-4 + 8) with 4 in Hloop. rewrite drain_4 in Hloop.
    split_triple Hloop.
    unfold Base64.flush. change (-6 <? -2) with true. cbv iota.
    rewrite first_sextet, second_sextet, flushed_after_two by auto with b64.
    rewrite pad_one.
    + unfold push_back. rewrite !append_assoc. reflexivity.
    + rewrite !size_push_back. Z.div_mod_to_equations. lia.
  - (* a full group, then the rest *)
    destruct (encode_loop_group x y z rest val out) as [val' Hgroup].
    rewrite Hgroup in Hloop.
    apply IH in Hloop.
    + rewrite Hloop. rewrite append_assoc. reflexivity.
    + unfold size in *. rewrite length_append. simpl.
      rewrite Nat2Z.inj_add. Z.div_mod_to_equations. lia.
Qed.

(** The source's encoder and the reference encoder agree. *)
Lemma base64_encode_rfc4648 (x : string) :
  Base64.base64_encode x = Base64.rfc4648_encode x.
Proof.
  unfold Base64.base64_encode.
  destruct (Base64.encode_loop x 0 (-6) "") as [[v vb] o] eqn:Hloop.
  apply encode_loop_rfc4648 in Hloop; [|reflexivity].
  exact Hloop.
Qed.

(** ** Decoding the reference encoding *)

Lemma decode_byte1 (x y : Z) :
  0 <= x < 256 -> 0 <= y < 256 ->
  Base64.sextet1 x * 4 + Base64.sextet2 x y / 16 = x.
Proof.
  intros. unfold Base64.sextet1, Base64.sextet2.
  Z.div_mod_to_equations. lia.
Qed.

Lemma decode_byte2 (x y z : Z) :
  0 <= x < 256 -> 0 <= y < 256 -> 0 <= z < 256 ->
  Base64.sextet2 x y mod 16 * 16 + Base64.sextet3 y z / 4 = y.
Proof.
  intros. unfold Base64.sextet2, Base64.sextet3.
  Z.div_mod_to_equations. lia.
Qed.

Lemma decode_byte3 (y z : Z) :
  0 <= y < 256 -> 0 <= z < 256 ->
  Base64.sextet3 y z mod 4 * 64 + Base64.sextet4 z = z.
Proof.
  intros. unfold Base64.sextet3, Base64.sextet4.
  Z.div_mod_to_equations. lia.
Qed.

Lemma pad_bits_after_one (x : Z) : Base64.sextet2 x 0 mod 16 = 0.
Proof. unfold Base64.sextet2. Z.div_mod_to_equations. lia. Qed.

Lemma pad_bits_after_two (y : Z) : Base64.sextet3 y 0 mod 4 = 0.
Proof. unfold Base64.sextet3. Z.div_mod_to_equations. lia. Qed.

Ltac table_lookup i :=
  let Hidx := fresh "Hidx" in
  let Hpad := fresh "Hpad" in
  destruct (table_inverse i) as [Hidx Hpad];
  [auto with b64 | rewrite ?Hidx, ?Hpad].

Lemma decode_rfc4648_encode (x : string) :
  Base64.base64_decode (Base64.rfc4648_encode x) = Some x.
Proof.
  induction x as [| x | x y | x y z rest IH] using string_ind3.
  - reflexivity.
  - cbn [Base64.rfc4648_encode Base64.base64_decode].
    table_lookup (Base64.sextet1 (u_char x)).
    table_lookup (Base64.sextet2 (u_char x) 0).
    rewrite pad_bits_after_one. simpl.
    rewrite decode_byte1 by auto with b64.
    now rewrite char_of_u_char.
  - cbn [Base64.rfc4648_encode Base64.base64_decode].
    table_lookup (Base64.sextet1 (u_char x)).
    table_lookup (Base64.sextet2 (u_char x) (u_char y)).
    table_lookup (Base64.sextet3 (u_char y) 0).
    rewrite pad_bits_after_two. simpl.
    rewrite decode_byte1, decode_byte2 by auto with b64.
    now rewrite !char_of_u_char.
  - cbn [Base64.rfc4648_encode Base64.base64_decode].
    table_lookup (Base64.sextet1 (u_char x)).
    table_lookup (Base64.sextet2 (u_char x) (u_char y)).
    table_lookup (Base64.sextet3 (u_char y) (u_char z)).
    table_lookup (Base64.sextet4 (u_char z)).
    rewrite IH.
    rewrite decode_byte1, decode_byte2, decode_byte3 by auto with b64.
    now rewrite !char_of_u_char.
Qed.

(** The reference encoding is a run of alphabet characters followed by
    no, one or two [=]. *)
Lemma rfc4648_encode_shape (x : string) :
  exists body padding,
    Base64.rfc4648_encode x = (body ++ padding)%string
    /\ Base64.over_alphabet body
    /\ (padding = "" \/ padding = "=" \/ padding = "==").
Proof.
  induction x as [| x | x y | x y z rest IH] using string_ind3.
  - exists "", "". simpl. auto.
  - eexists (String _ (String _ "")), "==".
    cbn [Base64.rfc4648_encode]. split; [reflexivity|].
    split; [|auto].
    simpl. repeat split; apply b_at_in_alphabet; auto with b64.
  - eexists (String _ (String _ (String _ ""))), "=".
    cbn [Base64.rfc4648_encode]. split; [reflexivity|].
    split; [|auto].
    simpl. repeat split; apply b_at_in_alphabet; auto with b64.
  - destruct IH as (body & padding & Heq & Hbody & Hpad).
    eexists (String _ (String _ (String _ (String _ body)))), padding.
    cbn [Base64.rfc4648_encode]. rewrite Heq.
    split; [reflexivity|]. split; [|assumption].
    simpl. repeat split; try assumption;
      apply b_at_in_alphabet; auto with b64.
Qed.

(** C4: for every byte string [x], [base64_encode x] is the standard
    Base64 encoding of [x] (it equals the reference encoder's output);
    decoding it gives [x] back; its length is a multiple of 4; and it
    consists of characters of the alphabet [A-Z a-z 0-9 + /] followed by
    at most two [=] of padding. *)
Theorem base64_encode_standard (x : string) :
  Base64.base64_encode x = Base64.rfc4648_encode x
  /\ Base64.base64_decode (Base64.base64_encode x) = Some x
  /\ size (Base64.base64_encode x) mod 4 = 0
  /\ exists body padding,
       Base64.base64_encode x = (body ++ padding)%string
       /\ Base64.over_alphabet body
       /\ (padding = "" \/ padding = "=" \/ padding = "==").
Proof.
  split; [apply base64_encode_rfc4648|].
  split; [rewrite base64_encode_rfc4648; apply decode_rfc4648_encode|].
  split.
  { unfold Base64.base64_encode.
    destruct (Base64.encode_loop x 0 (-6) "") as [[v vb] o].
    apply pad_exits. }
  rewrite base64_encode_rfc4648. apply rfc4648_encode_shape.
Qed.

(** ** Searching a string *)

Import Sys Client.

Lemma starts_with_spec (pat s : string) :
  starts_with pat s = true <-> exists behind, s = (pat ++ behind)%string.
Proof.
  revert s. induction pat as [|p pat IH]; intro s; simpl.
  - split; [intros _; now exists s | reflexivity].
  - destruct s as [|c s].
    + split; [discriminate | intros [behind H]; discriminate].
    + rewrite andb_true_iff, Ascii.eqb_eq, IH.
      split.
      * intros [-> [behind ->]]. now exists behind.
      * intros [behind H]. injection H as -> ->. split; [reflexivity|].
        now exists behind.
Qed.

Lemma occurs_in_empty (pat : string) : occurs_in pat "" <-> pat = "".
Proof.
  split.
  - intros (before & behind & H).
    destruct before; [|discriminate].
    destruct pat; [reflexivity | discriminate].
  - intros ->. now exists "", "".
Qed.

Lemma occurs_in_cons (pat : string) (c : ascii) (s : string) :
  occurs_in pat (String c s)
  <-> starts_with pat (String c s) = true \/ occurs_in pat s.
Proof.
  split.
  - intros (before & behind & H).
    destruct before as [|d before].
    + left. apply starts_with_spec. now exists behind.
    + right. injection H as _ ->. now exists before, behind.
  - intros [H | (before & behind & ->)].
    + apply starts_with_spec in H. destruct H as [behind H].
      exists "", behind. exact H.
    + now exists (String c before), behind.
Qed.

(** [find] answers a position exactly when the pattern occurs. *)
Lemma find_from_spec (s pat : string) :
  forall pos, is_pos (find_from pos s pat) = true <-> occurs_in pat s.
Proof.
  induction s as [|c s IH]; intro pos.
  - rewrite occurs_in_empty. simpl.
    destruct pat; simpl; split; intro H; try reflexivity; discriminate.
  - rewrite occurs_in_cons. cbn [find_from].
    destruct (starts_with pat (String c s)) eqn:E.
    + simpl. tauto.
    + rewrite IH. split; [tauto|]. intros [H|H]; [discriminate | exact H].
Qed.

Lemma find_spec (s pat : string) :
  is_pos (find s pat) = true <-> occurs_in pat s.
Proof. apply find_from_spec. Qed.

(** The test of the handshake on a received chunk. *)
Lemma success_test (result : string) :
  is_pos (find result "HTTP/1.1 200 OK") || is_pos (find result "ICY 200 OK")
  = true
  <-> success_response result.
Proof.
  unfold success_response.
  now rewrite orb_true_iff, !find_spec.
Qed.

Lemma failure_test (result : string) :
  is_pos (find result "HTTP/1.1 200 OK") || is_pos (find result "ICY 200 OK")
  = false
  <-> ~ success_response result.
Proof.
  rewrite <- success_test.
  destruct (_ || _); split; intro H; try reflexivity; try discriminate.
  now elim H.
Qed.

(** ** Outcomes and traces *)

Lemma after_nil {A : Type} (o : outcome A) : after [] o = o.
Proof. now destruct o. Qed.

Lemma after_app {A : Type} (tr1 tr2 : trace) (o : outcome A) :
  after (tr1 ++ tr2) o = after tr1 (after tr2 o).
Proof. destruct o; simpl; now rewrite app_assoc. Qed.

Lemma client_of_after {A : Type} (tr : trace) (o : outcome A) :
  client_of (after tr o) = client_of o.
Proof. now destruct o. Qed.

Lemma slept_app (tr1 tr2 : trace) : slept (tr1 ++ tr2) = slept tr1 + slept tr2.
Proof.
  induction tr1 as [|e tr1 IH]; simpl; [reflexivity|].
  destruct e; rewrite ?IH; lia.
Qed.

Lemma closes_app (tr1 tr2 : trace) :
  closes (tr1 ++ tr2) = closes tr1 || closes tr2.
Proof.
  induction tr1 as [|e tr1 IH]; simpl; [reflexivity|].
  destruct e; auto.
Qed.

(** ** One turn of the handshake loop *)

Section HandshakeTurn.

Variables (env : RunEnv) (i : nat) (c : NtripClient).

Lemma turn_on_silence :
  recv_ret env i < 0 ->
  handshake_body env i c
  = FlowNext c
      [Recv (sockfd_ c) (recv_ret env i);
       Print Cout [Str "ret:"; Int (recv_ret env i); Endl]].
Proof.
  intro H. unfold handshake_body.
  destruct (Z.ltb_spec 0 (recv_ret env i)); [lia|].
  destruct (Z.eqb_spec (recv_ret env i) 0); [lia|].
  reflexivity.
Qed.

Lemma turn_on_close :
  recv_ret env i = 0 ->
  handshake_body env i c
  = FlowReturn false c
      [Recv (sockfd_ c) 0;
       Print Cerr [Str "Error: Remote socket closed"; Endl];
       Close (sockfd_ c)].
Proof.
  intro H. unfold handshake_body. rewrite H. reflexivity.
Qed.

Lemma turn_on_other_response :
  0 < recv_ret env i ->
  ~ success_response (chunk env i) ->
  handshake_body env i c
  = FlowNext c
      [Recv (sockfd_ c) (recv_ret env i);
       Print Cerr [Str "Error: Request result: "; Str (chunk env i); Endl]].
Proof.
  intros Hret Hno. unfold handshake_body.
  destruct (Z.ltb_spec 0 (recv_ret env i)); [|lia].
  apply failure_test in Hno. unfold chunk in Hno. rewrite Hno.
  reflexivity.
Qed.

Lemma turn_on_success :
  0 < recv_ret env i ->
  success_response (chunk env i) ->
  handshake_body env i c
  = let c' := set_authenticated c true in
    let recv := Recv (sockfd_ c) (recv_ret env i) in
    let send := Send (sockfd_ c) (gga_buffer_ c) (send_gga_ret env) in
    if empty (gga_buffer_ c) then
      FlowBreak c' [recv; Print Cout [Str ("gga buff empty" ++ LF)%string]]
    else if send_gga_ret env <=? 0 then
      FlowReturn false c'
        [recv; send;
         Print Cerr [Str "Error: Could not send GGA data to server"; Endl];
         Close (sockfd_ c)]
    else
      FlowBreak c'
        [recv; send; Print Cout [Str ("send gga sucess" ++ LF)%string]].
Proof.
  intros Hret Hyes. unfold handshake_body.
  destruct (Z.ltb_spec 0 (recv_ret env i)); [|lia].
  apply success_test in Hyes. unfold chunk in Hyes. rewrite Hyes.
  cbn [gga_buffer_ set_authenticated sockfd_].
  destruct (empty (gga_buffer_ c)); reflexivity.
Qed.

Lemma turn_keeps_polling :
  keeps_polling env i ->
  handshake_body env i c = FlowNext c (turn_events env i c).
Proof.
  unfold turn_events.
  intros [H | [H1 H2]].
  - now rewrite turn_on_silence.
  - now rewrite turn_on_other_response.
Qed.

(** A polling turn sleeps nowhere and closes nothing by itself. *)
Lemma polling_turn_quiet :
  keeps_polling env i ->
  slept (turn_events env i c) = 0 /\ closes (turn_events env i c) = false.
Proof.
  unfold turn_events.
  intros [H | [H1 H2]].
  - now rewrite turn_on_silence.
  - now rewrite turn_on_other_response.
Qed.

End HandshakeTurn.

(** ** The handshake loop *)

(** [k] polling turns are gone through one after the other; [timeout]
    is the same after them as before. *)
Lemma polling_prefix (env : RunEnv) (c : NtripClient) (timeout : Z)
  (turns k : nat) :
  forall i,
    timeout < socket_timeout ->
    (forall j, (j < k)%nat -> keeps_polling env (i + j)) ->
    handshake_loop (k + turns) env i timeout c
    = after (polling_events env c i k)
        (handshake_loop turns env (i + k) timeout c).
Proof.
  induction k as [|k IH]; intros i Ht Hpoll.
  - simpl. rewrite after_nil. now rewrite Nat.add_0_r.
  - cbn [Nat.add handshake_loop polling_events].
    destruct (Z.ltb_spec timeout socket_timeout); [|lia].
    assert (H0 : keeps_polling env i).
    { specialize (Hpoll 0%nat). rewrite Nat.add_0_r in Hpoll.
      apply Hpoll. lia. }
    rewrite (turn_keeps_polling env i c H0).
    rewrite (IH (S i)); [| assumption |].
    + rewrite <- !after_app. rewrite <- app_assoc.
      now rewrite Nat.add_succ_r.
    + intros j Hj. specialize (Hpoll (S j)).
      rewrite Nat.add_succ_r in Hpoll. apply Hpoll. lia.
Qed.

Lemma polling_events_quiet (env : RunEnv) (c : NtripClient) (k : nat) :
  forall i,
    (forall j, (j < k)%nat -> keeps_polling env (i + j)) ->
    slept (polling_events env c i k) = 100 * Z.of_nat k
    /\ closes (polling_events env c i k) = false.
Proof.
  induction k as [|k IH]; intros i Hpoll.
  - simpl. split; [lia | reflexivity].
  - cbn [polling_events].
    assert (H0 : keeps_polling env i).
    { specialize (Hpoll 0%nat). rewrite Nat.add_0_r in Hpoll.
      apply Hpoll. lia. }
    destruct (polling_turn_quiet env i c H0) as [Hs Hc].
    destruct (IH (S i)) as [IHs IHc].
    { intros j Hj. specialize (Hpoll (S j)).
      rewrite Nat.add_succ_r in Hpoll. apply Hpoll. lia. }
    rewrite !slept_app, !closes_app, Hs, Hc, IHs, IHc.
    cbn [slept closes orb]. rewrite Nat2Z.inj_succ.
    split; [lia | reflexivity].
Qed.

(** With a peer that never answers with success and never closes, the
    loop uses up any number of turns: nothing in it changes [timeout]. *)
Lemma handshake_loop_polls_on (env : RunEnv) (c : NtripClient) (timeout : Z)
  (turns : nat) :
  timeout < socket_timeout ->
  (forall i, keeps_polling env i) ->
  forall i,
    handshake_loop turns env i timeout c
    = Unfinished c (polling_events env c i turns).
Proof.
  intros Ht Hpoll i.
  replace turns with (turns + 0)%nat at 1 by lia.
  rewrite polling_prefix by auto.
  simpl. destruct (Z.ltb_spec timeout socket_timeout); [|lia].
  simpl. now rewrite app_nil_r.
Qed.

(** ** Run up to the handshake *)

Lemma connect_to_handshake (turns : nat) (env : RunEnv) (c : NtripClient) :
  handshake_reached env c ->
  connect_and_authenticate turns env c
  = after (setup_events env c)
      (authenticate turns env (connected_client env c)).
Proof.
  intros (Hport & Hstatus & Hsock & Hconn & Hsend).
  unfold connect_and_authenticate, setup_events, port_number.
  destruct (stoi (port_ c)) as [port|]; [|congruence].
  rewrite Hstatus. simpl negb. cbv iota.
  cbn [sockfd_ set_sockfd set_connected host_ port_].
  destruct (Z.ltb_spec (socket_ret env) 0); [lia|].
  destruct (Z.ltb_spec (connect_ret env) 0); [lia|].
  destruct (Z.leb_spec (send_request_ret env) 0); [lia|].
  reflexivity.
Qed.

Lemma Run_to_handshake (turns : nat) (env : RunEnv) (c c1 : NtripClient)
  (tr1 : trace) :
  restart c = Returned tt c1 tr1 ->
  handshake_reached env c1 ->
  Run turns env c
  = after (tr1 ++ setup_events env c1)
      (authenticate turns env (connected_client env c1)).
Proof.
  intros Hrestart Hreach. unfold Run. rewrite Hrestart. simpl.
  rewrite connect_to_handshake by assumption.
  now rewrite after_app.
Qed.

(** ** Properties of the handshake *)


Lemma ok_reply_is_success :
  success_response (chunk (Scenario.accepting_peer 12) 1).
Proof.
  right. exists "", CRLF. reflexivity.
Qed.


(** The handshake loop from its first turn, once [k] polling turns have
    gone by. *)
Lemma authenticate_after_polling (env : RunEnv) (c : NtripClient)
  (k turns : nat) :
  (forall j, (j < k)%nat -> keeps_polling env j) ->
  handshake_loop (k + turns) env 0 0 c
  = after (polling_events env c 0 k) (handshake_loop turns env k 0 c).
Proof.
  intro Hpoll.
  rewrite polling_prefix; [reflexivity | reflexivity | exact Hpoll].
Qed.

Lemma bind_after {A B : Type} (tr : trace) (m : outcome A)
  (k : A -> NtripClient -> outcome B) :
  bind (after tr m) k = after tr (bind m k).
Proof. destruct m; simpl; [|reflexivity|reflexivity].
  now rewrite after_app.
Qed.

(** [Run] at the turn that follows [k] polling turns. *)
Lemma Run_at_turn (env : RunEnv) (c c1 : NtripClient) (tr1 : trace)
  (k turns : nat) :
  restart c = Returned tt c1 tr1 ->
  handshake_reached env c1 ->
  (forall j, (j < k)%nat -> keeps_polling env j) ->
  (k < turns)%nat ->
  Run turns env c
  = after
      (tr1 ++ setup_events env c1
         ++ polling_events env (connected_client env c1) 0 k)
      (bind
         (handshake_loop (S (turns - S k)) env k 0 (connected_client env c1))
         finish_run).
Proof.
  intros Hrestart Hreach Hpoll Hk.
  rewrite (Run_to_handshake turns env c c1 tr1 Hrestart Hreach).
  unfold authenticate.
  replace turns with (k + S (turns - S k))%nat at 1 by lia.
  rewrite authenticate_after_polling by exact Hpoll.
  rewrite bind_after, <- after_app, <- app_assoc.
  reflexivity.
Qed.

(** C8: when a [recv] of the handshake returns 0, [Run] closes the socket
    and returns [false] at that very turn: after [k] polling turns it
    has slept [k] times 100 ms, however many turns were still to come. *)
Theorem Run_fails_when_peer_closes (env : RunEnv) (c c1 : NtripClient)
  (tr1 : trace) (k turns : nat) :
  restart c = Returned tt c1 tr1 ->
  handshake_reached env c1 ->
  (forall j, (j < k)%nat -> keeps_polling env j) ->
  recv_ret env k = 0 ->
  (k < turns)%nat ->
  let polling := polling_events env (connected_client env c1) 0 k in
  Run turns env c
  = Returned false (connected_client env c1)
      (tr1 ++ setup_events env c1 ++ polling
         ++ [Recv (socket_ret env) 0;
             Print Cerr [Str "Error: Remote socket closed"; Endl];
             Close (socket_ret env)])
  /\ slept polling = 100 * Z.of_nat k.
Proof.
  intros Hrestart Hreach Hpoll Hzero Hk polling.
  split; [|now apply polling_events_quiet].
  rewrite (Run_at_turn env c c1 tr1 k turns Hrestart Hreach Hpoll Hk).
  fold polling.
  cbn [handshake_loop]. change (0 <? socket_timeout) with true. cbv iota.
  rewrite turn_on_close by exact Hzero.
  simpl. rewrite <- !app_assoc. reflexivity.
Qed.

Lemma closing_peer_polls (j : nat) :
  (j < 2)%nat -> keeps_polling Scenario.closing_peer j.
Proof.
  intro Hj. left.
  destruct j as [|[|j]]; [reflexivity | reflexivity | lia].
Qed.

Lemma rover_reaches_handshake (env_recv : nat -> Z) (buf : nat -> string)
  (send_gga : Z) (gga : string) :
  handshake_reached (Scenario.network env_recv buf send_gga)
    (UpdateGGA Scenario.rover gga).
Proof.
  repeat split; try (simpl; lia).
  vm_compute. discriminate.
Qed.

Lemma Run_fails_when_peer_closes_witness :
  exists tr,
    Run 50 Scenario.closing_peer Scenario.rover
    = Returned false (connected_client Scenario.closing_peer Scenario.rover)
        tr
    /\ slept tr = 200.
Proof.
  destruct (Run_fails_when_peer_closes Scenario.closing_peer Scenario.rover
              Scenario.rover [] 2 50) as [Hrun Hslept].
  - reflexivity.
  - exact (rover_reaches_handshake _ _ _ (gga_buffer_ Scenario.rover)).
  - exact closing_peer_polls.
  - reflexivity.
  - lia.
  - eexists. split; [exact Hrun|].
    vm_compute. reflexivity.
Defined.

Lemma empty_spec (s : string) : empty s = true <-> s = "".
Proof. destruct s; simpl; split; intro H; congruence. Qed.

Lemma not_empty_spec (s : string) : empty s = false <-> s <> "".
Proof. destruct s; simpl; split; intro H; congruence. Qed.

(** C9: when the handshake succeeds at some turn, [Run] sets
    [authenticated_]; with an empty report buffer it goes on to start the
    streaming thread and returns [true]; with a report in the buffer it
    sends that report at once, and then starts the thread and returns
    [true] if the [send] succeeded, or closes the socket and returns
    [false] if it failed. *)
Theorem Run_after_success (env : RunEnv) (c c1 : NtripClient) (tr1 : trace)
  (k turns : nat) :
  restart c = Returned tt c1 tr1 ->
  handshake_reached env c1 ->
  (forall j, (j < k)%nat -> keeps_polling env j) ->
  0 < recv_ret env k ->
  success_response (chunk env k) ->
  (k < turns)%nat ->
  let fd := socket_ret env in
  let authenticated := set_authenticated (connected_client env c1) true in
  let started := set_thread (set_running authenticated true) ThreadRunning in
  let before :=
    tr1 ++ setup_events env c1
      ++ polling_events env (connected_client env c1) 0 k in
  let recv := Recv fd (recv_ret env k) in
  let send := Send fd (gga_buffer_ c1) (send_gga_ret env) in
  (gga_buffer_ c1 = "" ->
   Run turns env c
   = Returned true started
       (before
          ++ [recv; Print Cout [Str ("gga buff empty" ++ LF)%string]; Spawn]))
  /\ (gga_buffer_ c1 <> "" -> 0 < send_gga_ret env ->
      Run turns env c
      = Returned true started
          (before
             ++ [recv; send; Print Cout [Str ("send gga sucess" ++ LF)%string];
                 Spawn]))
  /\ (gga_buffer_ c1 <> "" -> send_gga_ret env <= 0 ->
      Run turns env c
      = Returned false authenticated
          (before
             ++ [recv; send;
                 Print Cerr
                   [Str "Error: Could not send GGA data to server"; Endl];
                 Close fd])).
Proof.
  intros Hrestart Hreach Hpoll Hret Hyes Hk.
  intros fd authenticated started before recv send.
  rewrite (Run_at_turn env c c1 tr1 k turns Hrestart Hreach Hpoll Hk).
  fold before.
  cbn [handshake_loop]. change (0 <? socket_timeout) with true. cbv iota.
  rewrite (turn_on_success env k _ Hret Hyes). cbv zeta.
  cbn [gga_buffer_ connected_client set_connected set_sockfd sockfd_].
  fold (connected_client env c1). fold authenticated. fold fd.
  repeat split.
  - intro Hempty. apply empty_spec in Hempty. rewrite Hempty.
    reflexivity.
  - intros Hfull Hsent. apply not_empty_spec in Hfull. rewrite Hfull.
    destruct (Z.leb_spec (send_gga_ret env) 0); [lia|].
    reflexivity.
  - intros Hfull Hfail. apply not_empty_spec in Hfull. rewrite Hfull.
    destruct (Z.leb_spec (send_gga_ret env) 0); [|lia].
    reflexivity.
Qed.

Lemma accepting_peer_polls (send_gga : Z) (j : nat) :
  (j < 1)%nat -> keeps_polling (Scenario.accepting_peer send_gga) j.
Proof.
  intro Hj. left.
  destruct j as [|j]; [reflexivity | lia].
Qed.

Lemma Run_after_success_witness :
  Run 50 (Scenario.accepting_peer 12) Scenario.rover_with_report
  = Returned true
      (mkNtripClient "caster.example.org" "2101" "RTCM33" "user" "secret" 3
         "$GPGGA,1*00" ThreadRunning true true true true)
      (setup_events (Scenario.accepting_peer 12) Scenario.rover_with_report
         ++ [Recv 3 (-1); Print Cout [Str "ret:"; Int (-1); Endl]; Sleep 100;
             Recv 3 12; Send 3 "$GPGGA,1*00" 12;
             Print Cout [Str ("send gga sucess" ++ LF)%string]; Spawn]).
Proof.
  destruct (Run_after_success (Scenario.accepting_peer 12)
              Scenario.rover_with_report Scenario.rover_with_report [] 1 50)
    as (_ & Hsent & _).
  - reflexivity.
  - exact (rover_reaches_handshake _ _ _ "$GPGGA,1*00").
  - exact (accepting_peer_polls 12).
  - reflexivity.
  - exact ok_reply_is_success.
  - lia.
  - rewrite Hsent; [reflexivity | discriminate | reflexivity].
Defined.

(** ** The handshake never times out *)

(** Whatever is left of [Run] once the handshake is reached, with a peer
    whose answers keep the loop polling: the loop is still going after
    any number of turns. *)
Lemma Run_never_times_out (env : RunEnv) (c c1 : NtripClient) (tr1 : trace)
  (turns : nat) :
  restart c = Returned tt c1 tr1 ->
  handshake_reached env c1 ->
  (forall i, keeps_polling env i) ->
  Run turns env c
  = Unfinished (connected_client env c1)
      (tr1 ++ setup_events env c1
         ++ polling_events env (connected_client env c1) 0 turns).
Proof.
  intros Hrestart Hreach Hpoll.
  rewrite (Run_to_handshake turns env c c1 tr1 Hrestart Hreach).
  unfold authenticate.
  rewrite handshake_loop_polls_on; [| reflexivity | exact Hpoll].
  simpl. now rewrite <- app_assoc.
Qed.

(** C1, on the code: with a peer that never sends anything, [Run] does
    not return after 50 turns nor after any other number of turns.
    However many turns of the handshake loop are followed, [Run] is still
    inside the loop, has slept 100 ms per turn, and has closed nothing:
    [timeout] stays 0, so neither the loop condition nor the test after
    the loop ever sees the budget used up. *)
Theorem Run_silent_peer_never_returns (turns : nat) :
  exists tr,
    Run turns Scenario.silent_peer Scenario.rover
    = Unfinished (connected_client Scenario.silent_peer Scenario.rover) tr
    /\ slept tr = 100 * Z.of_nat turns
    /\ closes tr = false.
Proof.
  assert (Hpoll : forall i, keeps_polling Scenario.silent_peer i).
  { intro i. left. reflexivity. }
  eexists. split.
  - apply (Run_never_times_out Scenario.silent_peer Scenario.rover
             Scenario.rover []).
    + reflexivity.
    + exact (rover_reaches_handshake _ _ _ (gga_buffer_ Scenario.rover)).
    + exact Hpoll.
  - destruct (polling_events_quiet Scenario.silent_peer
                (connected_client Scenario.silent_peer Scenario.rover)
                turns 0%nat (fun j _ => Hpoll (0 + j)%nat)) as [Hs Hc].
    rewrite app_nil_l, slept_app, closes_app, Hs, Hc.
    split; reflexivity.
Qed.

(** ** One turn of the streaming loop *)

Lemma after_returned {A : Type} (tr : trace) (o : outcome A) (a : A)
  (c : NtripClient) (t : trace) :
  after tr o = Returned a c t ->
  exists t', o = Returned a c t' /\ t = tr ++ t'.
Proof.
  destruct o as [a0 c0 t0| |]; simpl; intro H; try discriminate.
  injection H as -> -> <-. now exists t0.
Qed.

Lemma Cleanup_open (c : NtripClient) :
  0 < sockfd_ c -> Cleanup c = (set_sockfd c (-1), [Close (sockfd_ c)]).
Proof.
  intro H. unfold Cleanup.
  destruct (Z.ltb_spec 0 (sockfd_ c)); [reflexivity | lia].
Qed.

(** The test on [errno] in the loop. *)
Lemma errno_test (errno : Z) :
  negb (errno =? 0) && negb (errno =? EAGAIN) && negb (errno =? EWOULDBLOCK)
    && negb (errno =? EINTR) = false
  <-> passed_over errno.
Proof.
  unfold passed_over.
  destruct (Z.eqb_spec errno 0), (Z.eqb_spec errno EAGAIN),
    (Z.eqb_spec errno EWOULDBLOCK), (Z.eqb_spec errno EINTR);
    simpl; split; intro H; try reflexivity; try discriminate; tauto.
Qed.

Section StreamingTurn.

Variables (tk : Tick) (c : NtripClient).

Lemma on_recv_closed :
  tick_recv_ret tk = 0 ->
  on_recv tk c
  = Next tt
      [Recv (sockfd_ c) 0; Print Cerr [Str "Remote socket closed"; Endl]].
Proof.
  intro H. unfold on_recv. rewrite H. reflexivity.
Qed.

Lemma on_recv_passed_over :
  tick_recv_ret tk < 0 ->
  passed_over (tick_errno tk) ->
  on_recv tk c = Next tt [Recv (sockfd_ c) (tick_recv_ret tk)].
Proof.
  intros Hret Herrno. unfold on_recv.
  destruct (Z.eqb_spec (tick_recv_ret tk) 0); [lia|].
  destruct (Z.ltb_spec (tick_recv_ret tk) 0); [|lia].
  apply errno_test in Herrno. now rewrite Herrno.
Qed.

Lemma on_recv_fatal :
  recv_fatal tk ->
  on_recv tk c
  = Return false (fst (Cleanup c))
      ([Recv (sockfd_ c) (tick_recv_ret tk);
        Print Cerr
          [Str "Remote socket error, errno="; Int (tick_errno tk); Endl]]
         ++ snd (Cleanup c)).
Proof.
  intros [Hret Herrno]. unfold on_recv.
  destruct (Z.eqb_spec (tick_recv_ret tk) 0); [lia|].
  destruct (Z.ltb_spec (tick_recv_ret tk) 0); [|lia].
  rewrite <- errno_test in Herrno.
  apply not_false_is_true in Herrno. rewrite Herrno.
  now destruct (Cleanup c).
Qed.

Lemma on_timer_fatal (start_time : Z) :
  send_fatal tk start_time c ->
  on_timer tk start_time c
  = Return false (fst (Cleanup c))
      ([Send (sockfd_ c) (gga_buffer_ c) (tick_send_ret tk);
        Print Cerr [Str "Error: Could not send GGA data to server"; Endl]]
         ++ snd (Cleanup c)).
Proof.
  intros (Hdue & Hfull & Hfail). unfold on_timer.
  destruct (Z.leb_spec reporting_interval_ms
              (elapsed_ms start_time (tick_clock tk))); [|lia].
  apply not_empty_spec in Hfull. rewrite Hfull. simpl negb. cbv iota.
  destruct (Z.ltb_spec (tick_send_ret tk) 0); [|lia].
  now destruct (Cleanup c).
Qed.

(** Every return of a turn goes through [Cleanup] and reports failure. *)
Lemma on_recv_return (ret : bool) (c' : NtripClient) (tr : trace) :
  on_recv tk c = Return ret c' tr ->
  ret = false /\ c' = fst (Cleanup c)
  /\ exists before, tr = before ++ snd (Cleanup c).
Proof.
  unfold on_recv.
  destruct (tick_recv_ret tk =? 0); [discriminate|].
  destruct (tick_recv_ret tk <? 0); [|discriminate].
  destruct (_ && _); [|discriminate].
  destruct (Cleanup c) as [c0 closing]. intro H.
  injection H as <- <- <-. simpl.
  repeat split. eexists [_; _]. reflexivity.
Qed.

Lemma on_timer_return (start_time : Z) (ret : bool) (c' : NtripClient)
  (tr : trace) :
  on_timer tk start_time c = Return ret c' tr ->
  ret = false /\ c' = fst (Cleanup c)
  /\ exists before, tr = before ++ snd (Cleanup c).
Proof.
  unfold on_timer.
  destruct (reporting_interval_ms <=? _); [|discriminate].
  destruct (negb _); [|discriminate].
  destruct (tick_send_ret tk <? 0); [|discriminate].
  destruct (Cleanup c) as [c0 closing]. intro H.
  injection H as <- <- <-. simpl.
  repeat split. eexists [_; _]. reflexivity.
Qed.

Lemma thread_body_return (start_time : Z) (ret : bool) (c' : NtripClient)
  (tr : trace) :
  thread_body tk start_time c = Return ret c' tr ->
  ret = false /\ c' = fst (Cleanup c)
  /\ exists before, tr = before ++ snd (Cleanup c).
Proof.
  unfold thread_body.
  destruct (on_recv tk c) as [[] tr1 | ret1 c1 tr1] eqn:Hrecv.
  - destruct (on_timer tk start_time c) as [st tr2 | ret2 c2 tr2] eqn:Htimer;
      [discriminate|].
    intro H. injection H as <- <- <-.
    apply on_timer_return in Htimer.
    destruct Htimer as (Hret & Hc & before & Htr).
    repeat split; [assumption | assumption |].
    exists (tr1 ++ before). rewrite Htr. now rewrite app_assoc.
  - intro H. injection H as <- <- <-.
    now apply on_recv_return in Hrecv.
Qed.

End StreamingTurn.

(** The caller's writes leave the socket handle alone. *)
Lemma sockfd_caller_updates_gga (tk : Tick) (c : NtripClient) :
  sockfd_ (caller_updates_gga tk c) = sockfd_ c.
Proof. unfold caller_updates_gga. now destruct (tick_gga_update tk). Qed.

Lemma sockfd_caller_requests_stop (tk : Tick) (c : NtripClient) :
  sockfd_ (caller_requests_stop tk c) = sockfd_ c.
Proof. unfold caller_requests_stop. now destruct (tick_stop_requested tk). Qed.

Lemma running_caller_updates_gga (tk : Tick) (c : NtripClient) :
  running_ (caller_updates_gga tk c) = running_ c.
Proof. unfold caller_updates_gga. now destruct (tick_gga_update tk). Qed.

(** A turn whose two halves go on leads to the next test of the loop
    condition. *)
Lemma thread_loop_next (tk : Tick) (rest : list Tick) (start_time : Z)
  (c : NtripClient) (tr1 : trace) (start_time' : Z) (tr2 : trace) :
  running_ c = true ->
  on_recv tk (caller_updates_gga tk c) = Next tt tr1 ->
  on_timer tk start_time (caller_updates_gga tk c) = Next start_time' tr2 ->
  thread_loop (tk :: rest) start_time c
  = after (tr1 ++ tr2 ++ [Sleep 10])
      (thread_loop rest start_time'
         (caller_requests_stop tk (caller_updates_gga tk c))).
Proof.
  intros Hrun Hrecv Htimer.
  cbn [thread_loop]. rewrite Hrun.
  unfold thread_body. now rewrite Hrecv, Htimer.
Qed.

(** ** Properties of the streaming loop *)

(** C7: a [recv] that returns 0 in the streaming loop is logged and
    nothing else: the receive half of the turn neither closes the socket
    nor returns, and the loop (unless the report of the same turn is
    due and fails to be sent) sleeps and comes to its next turn. *)
Theorem zero_bytes_not_fatal (tk : Tick) (c : NtripClient) :
  tick_recv_ret tk = 0 ->
  let logged :=
    [Recv (sockfd_ c) 0; Print Cerr [Str "Remote socket closed"; Endl]] in
  on_recv tk c = Next tt logged
  /\ forall start_time start_time' tr rest,
       running_ c = true ->
       on_timer tk start_time (caller_updates_gga tk c) = Next start_time' tr ->
       thread_loop (tk :: rest) start_time c
       = after (logged ++ tr ++ [Sleep 10])
           (thread_loop rest start_time'
              (caller_requests_stop tk (caller_updates_gga tk c))).
Proof.
  intros Hret logged. split.
  - now apply on_recv_closed.
  - intros start_time start_time' tr rest Hrun Htimer.
    apply thread_loop_next; [assumption | | assumption].
    rewrite on_recv_closed by assumption.
    now rewrite sockfd_caller_updates_gga.
Qed.

Lemma zero_bytes_not_fatal_witness :
  thread_loop [Scenario.end_of_stream; Scenario.end_of_stream] 0
    Scenario.streaming_rover
  = Unfinished Scenario.streaming_rover
      [Recv 3 0; Print Cerr [Str "Remote socket closed"; Endl]; Sleep 10;
       Recv 3 0; Print Cerr [Str "Remote socket closed"; Endl]; Sleep 10].
Proof.
  destruct (zero_bytes_not_fatal Scenario.end_of_stream
              Scenario.streaming_rover eq_refl) as [_ Hloop].
  rewrite (Hloop 0 0 [] [Scenario.end_of_stream] eq_refl eq_refl).
  reflexivity.
Defined.

(** The two branches of the test on [errno] after a failed [recv].  A
    failure is passed over when [errno] is [EAGAIN], [EWOULDBLOCK] or
    [EINTR] (or 0, which the test lets through too): nothing is logged,
    nothing is closed and the loop goes on.  With any other [errno] the
    turn is fatal: the error is logged and [ThreadHandler] returns
    [false]; on a handle [sockfd_ > 0], [Cleanup] has closed the socket
    and reset [sockfd_] to -1. *)
Theorem recv_failure_handling (tk : Tick) (c : NtripClient) :
  tick_recv_ret tk < 0 ->
  let recv := Recv (sockfd_ c) (tick_recv_ret tk) in
  (passed_over (tick_errno tk) ->
   on_recv tk c = Next tt [recv]
   /\ forall start_time start_time' tr rest,
        running_ c = true ->
        on_timer tk start_time (caller_updates_gga tk c)
        = Next start_time' tr ->
        thread_loop (tk :: rest) start_time c
        = after ([recv] ++ tr ++ [Sleep 10])
            (thread_loop rest start_time'
               (caller_requests_stop tk (caller_updates_gga tk c))))
  /\ (~ passed_over (tick_errno tk) ->
      0 < sockfd_ c ->
      let failed :=
        [recv;
         Print Cerr
           [Str "Remote socket error, errno="; Int (tick_errno tk); Endl];
         Close (sockfd_ c)] in
      on_recv tk c = Return false (set_sockfd c (-1)) failed
      /\ forall start_time rest,
           running_ c = true ->
           thread_loop (tk :: rest) start_time c
           = Returned false (set_sockfd (caller_updates_gga tk c) (-1))
               failed).
Proof.
  intros Hret recv. split.
  - intro Hpass. split.
    + now apply on_recv_passed_over.
    + intros start_time start_time' tr rest Hrun Htimer.
      apply thread_loop_next; [assumption | | assumption].
      rewrite on_recv_passed_over by assumption.
      now rewrite sockfd_caller_updates_gga.
  - intros Hfatal Hopen failed. split.
    + rewrite on_recv_fatal by (split; assumption).
      now rewrite Cleanup_open by assumption.
    + intros start_time rest Hrun.
      cbn [thread_loop]. rewrite Hrun. unfold thread_body.
      rewrite on_recv_fatal by (split; assumption).
      rewrite Cleanup_open by (now rewrite sockfd_caller_updates_gga).
      now rewrite sockfd_caller_updates_gga.
Qed.

Lemma recv_failure_handling_witness :
  tick_recv_ret (Scenario.failed_recv EAGAIN) < 0
  /\ on_recv (Scenario.failed_recv EAGAIN) Scenario.streaming_rover
     = Next tt [Recv 3 (-1)]
  /\ on_recv (Scenario.failed_recv Scenario.ECONNRESET)
       Scenario.streaming_rover
     = Return false (set_sockfd Scenario.streaming_rover (-1))
         [Recv 3 (-1);
          Print Cerr [Str "Remote socket error, errno="; Int 104; Endl];
          Close 3].
Proof.
  split; [reflexivity|]. split.
  - apply (recv_failure_handling (Scenario.failed_recv EAGAIN)
             Scenario.streaming_rover); [reflexivity|].
    right. left. reflexivity.
  - apply (recv_failure_handling (Scenario.failed_recv Scenario.ECONNRESET)
             Scenario.streaming_rover); [reflexivity | | reflexivity].
    unfold passed_over. vm_compute. intuition discriminate.
Defined.

(** The handle 0 is one [Run] accepts ([sockfd_ < 0] is its only test)
    and hands to the streaming thread. *)
Lemma Run_on_handle_zero :
  exists tr,
    Run 50 Scenario.accepting_peer_on_handle_zero Scenario.rover_with_report
    = Returned true Scenario.streaming_on_handle_zero tr.
Proof. eexists. vm_compute. reflexivity. Qed.

(** C6, on the code: a failed [recv] with a fatal [errno] ends the loop
    with [false], but on the handle 0, which [Run] and the entry check
    of [ThreadHandler] ([sockfd_ < 0]) take for a valid socket, it
    closes nothing: [Cleanup] tests [sockfd_ > 0] and passes the handle
    over.  The events of the turn are the [recv] and the log line, no
    [close]; [sockfd_] is still 0 and the socket is still open when
    [ThreadHandler] has returned. *)
Theorem fatal_recv_leaves_handle_zero_open (tk : Tick) (start_time : Z)
  (rest : list Tick) (c : NtripClient) :
  running_ c = true ->
  sockfd_ c = 0 ->
  recv_fatal tk ->
  thread_loop (tk :: rest) start_time c
  = Returned false (caller_updates_gga tk c)
      [Recv 0 (tick_recv_ret tk);
       Print Cerr
         [Str "Remote socket error, errno="; Int (tick_errno tk); Endl]]
  /\ sockfd_ (caller_updates_gga tk c) = 0.
Proof.
  intros Hrun Hzero Hfatal.
  assert (Hfd : sockfd_ (caller_updates_gga tk c) = 0)
    by now rewrite sockfd_caller_updates_gga.
  split; [|exact Hfd].
  cbn [thread_loop]. rewrite Hrun. unfold thread_body.
  rewrite on_recv_fatal by assumption.
  unfold Cleanup. rewrite Hfd. reflexivity.
Qed.

Lemma fatal_recv_leaves_handle_zero_open_witness :
  recv_fatal (Scenario.failed_recv Scenario.ECONNRESET)
  /\ ThreadHandler 0 [Scenario.failed_recv Scenario.ECONNRESET]
       Scenario.streaming_on_handle_zero
     = Returned false Scenario.streaming_on_handle_zero
         [Print Cout [Str "NtripClient service running..."; Endl];
          Recv 0 (-1);
          Print Cerr [Str "Remote socket error, errno="; Int 104; Endl]]
  /\ sockfd_ Scenario.streaming_on_handle_zero = 0.
Proof.
  assert (Hfatal : recv_fatal (Scenario.failed_recv Scenario.ECONNRESET)).
  { split; [reflexivity|].
    unfold passed_over. vm_compute. intuition discriminate. }
  split; [exact Hfatal|].
  destruct (fatal_recv_leaves_handle_zero_open
              (Scenario.failed_recv Scenario.ECONNRESET) 0 []
              Scenario.streaming_on_handle_zero eq_refl eq_refl
              Hfatal) as [Hloop Hfd].
  split; [|exact Hfd].
  unfold ThreadHandler. simpl negb. cbv iota.
  change (sockfd_ Scenario.streaming_on_handle_zero <? 0) with false.
  cbv iota. rewrite Hloop. reflexivity.
Defined.

(** The loop never writes a flag, and the caller's thread writes only
    [running_] and [gga_buffer_] while the loop runs. *)
Lemma flags_caller_writes (tk : Tick) (c : NtripClient) :
  let c' := caller_requests_stop tk (caller_updates_gga tk c) in
  sockfd_ c' = sockfd_ c
  /\ connected_ c' = connected_ c
  /\ authenticated_ c' = authenticated_ c.
Proof.
  unfold caller_requests_stop, caller_updates_gga.
  destruct (tick_stop_requested tk), (tick_gga_update tk); simpl; auto.
Qed.

(** A failure reported from inside the loop: the socket was closed, the
    handle reset, and no flag touched; [running_] is still set. *)
Lemma thread_loop_failure (ticks : list Tick) :
  forall (start_time : Z) (c c' : NtripClient) (tr : trace),
    0 < sockfd_ c ->
    thread_loop ticks start_time c = Returned false c' tr ->
    In (Close (sockfd_ c)) tr
    /\ sockfd_ c' = -1
    /\ running_ c' = true
    /\ connected_ c' = connected_ c
    /\ authenticated_ c' = authenticated_ c.
Proof.
  induction ticks as [|tk rest IH]; intros start_time c c' tr Hopen Hloop.
  - simpl in Hloop. destruct (running_ c); [discriminate|].
    destruct (Cleanup c). discriminate.
  - cbn [thread_loop] in Hloop.
    destruct (running_ c) eqn:Hrun;
      [| destruct (Cleanup c); discriminate].
    destruct (thread_body tk start_time (caller_updates_gga tk c))
      as [start_time' tr1 | ret c1 tr1] eqn:Hbody.
    + apply after_returned in Hloop. destruct Hloop as (t' & Hrest & ->).
      destruct (flags_caller_writes tk c) as (Hfd & Hconn & Hauth).
      apply IH in Hrest; [| cbv zeta in Hfd; lia].
      destruct Hrest as (Hin & Hfd' & Hrun' & Hconn' & Hauth').
      cbv zeta in *. rewrite Hfd in Hin.
      repeat split; try congruence.
      apply in_or_app. now right.
    + injection Hloop as -> -> ->.
      apply thread_body_return in Hbody.
      destruct Hbody as (_ & -> & before & ->).
      rewrite Cleanup_open by (now rewrite sockfd_caller_updates_gga).
      rewrite sockfd_caller_updates_gga. simpl.
      unfold caller_updates_gga.
      destruct (tick_gga_update tk); simpl;
        (repeat split; try assumption; try reflexivity;
         apply in_or_app; right; now left).
Qed.

(** C2, as the code has it: at whatever turn of the streaming loop a
    fatal I/O error happens (a [recv] failure that is not passed over, or
    a failed [send] of the report), [ThreadHandler], holding a handle
    [sockfd_ > 0], closes the socket, resets [sockfd_] to -1 and returns
    [false]; and whenever [ThreadHandler] returns [false] from inside the
    loop, that is what it has done.  It clears no flag: [running_] is
    still set, so [IsRunning()] still answers [true] afterwards. *)
Theorem fatal_io_ends_stream :
  (forall (tk : Tick) (start_time : Z) (rest : list Tick) (c : NtripClient),
      running_ c = true ->
      0 < sockfd_ c ->
      recv_fatal tk \/ send_fatal tk start_time (caller_updates_gga tk c) ->
      exists tr,
        thread_loop (tk :: rest) start_time c
        = Returned false (set_sockfd (caller_updates_gga tk c) (-1)) tr
        /\ In (Close (sockfd_ c)) tr
        /\ IsRunning (set_sockfd (caller_updates_gga tk c) (-1)) = true)
  /\ (forall (clock : Z) (ticks : list Tick) (c c' : NtripClient)
        (tr : trace),
         initialized_ c = true ->
         connected_ c = true ->
         authenticated_ c = true ->
         0 < sockfd_ c ->
         ThreadHandler clock ticks c = Returned false c' tr ->
         In (Close (sockfd_ c)) tr
         /\ sockfd_ c' = -1
         /\ IsRunning c' = true
         /\ connected_ c' = true
         /\ authenticated_ c' = true).
Proof.
  split.
  - intros tk start_time rest c Hrun Hopen Hfatal.
    assert (Hopen' : 0 < sockfd_ (caller_updates_gga tk c))
      by now rewrite sockfd_caller_updates_gga.
    assert (Hrun' : IsRunning (set_sockfd (caller_updates_gga tk c) (-1))
                    = true).
    { unfold IsRunning. simpl. now rewrite running_caller_updates_gga. }
    cbn [thread_loop]. rewrite Hrun.
    destruct (thread_body tk start_time (caller_updates_gga tk c))
      as [start_time' tr1 | ret c1 tr1] eqn:Hbody.
    + (* the turn cannot go on *)
      exfalso. unfold thread_body in Hbody.
      destruct Hfatal as [Hrecv | Hsend].
      * now rewrite on_recv_fatal in Hbody by assumption.
      * destruct (on_recv tk (caller_updates_gga tk c)); [|discriminate].
        now rewrite on_timer_fatal in Hbody by assumption.
    + apply thread_body_return in Hbody.
      destruct Hbody as (-> & -> & before & ->).
      rewrite Cleanup_open by assumption. simpl.
      exists (before ++ [Close (sockfd_ (caller_updates_gga tk c))]).
      repeat split; [| assumption].
      rewrite sockfd_caller_updates_gga.
      apply in_or_app. right. now left.
  - intros clock ticks c c' tr Hinit Hconn Hauth Hopen Hret.
    unfold ThreadHandler in Hret.
    rewrite Hinit, Hconn, Hauth in Hret. simpl negb in Hret. cbv iota in Hret.
    destruct (Z.ltb_spec (sockfd_ c) 0); [lia|].
    apply after_returned in Hret. destruct Hret as (t' & Hloop & ->).
    apply thread_loop_failure in Hloop; [|assumption].
    destruct Hloop as (Hin & Hfd & Hrun & Hconn' & Hauth').
    unfold IsRunning.
    repeat split; try congruence.
    apply in_or_app. now right.
Qed.

Lemma reset_is_fatal : recv_fatal (Scenario.failed_recv Scenario.ECONNRESET).
Proof.
  split; [reflexivity|].
  unfold passed_over. vm_compute. intuition discriminate.
Qed.

Lemma fatal_io_ends_stream_witness :
  exists tr,
    thread_loop [Scenario.failed_recv Scenario.ECONNRESET] 0
      Scenario.streaming_rover
    = Returned false (set_sockfd Scenario.streaming_rover (-1)) tr
    /\ In (Close 3) tr
    /\ IsRunning (set_sockfd Scenario.streaming_rover (-1)) = true.
Proof.
  destruct fatal_io_ends_stream as [Hturn _].
  apply (Hturn (Scenario.failed_recv Scenario.ECONNRESET) 0 []
           Scenario.streaming_rover).
  - reflexivity.
  - reflexivity.
  - left. exact reset_is_fatal.
Defined.

(** C2, as stated, fails: after a connection reset in the streaming loop
    [ThreadHandler] has closed the socket and returned [false], and
    [IsRunning()] answers [true]. *)
Lemma broken_stream_still_running :
  recv_fatal (Scenario.failed_recv Scenario.ECONNRESET)
  /\ ThreadHandler 0 [Scenario.failed_recv Scenario.ECONNRESET]
       Scenario.streaming_rover
     = Returned false (set_sockfd Scenario.streaming_rover (-1))
         [Print Cout [Str "NtripClient service running..."; Endl];
          Recv 3 (-1);
          Print Cerr [Str "Remote socket error, errno="; Int 104; Endl];
          Close 3]
  /\ IsRunning (set_sockfd Scenario.streaming_rover (-1)) = true.
Proof.
  split; [exact reset_is_fatal|].
  split; reflexivity.
Qed.

(** ** The socket handle and the flags *)

(** What a turn of the handshake does to the client: it may set
    [authenticated_], and it does so when it breaks out of the loop; it
    returns nothing but [false]. *)
Lemma handshake_body_effect (env : RunEnv) (i : nat) (c : NtripClient) :
  match handshake_body env i c with
  | FlowNext c' _ => c' = c
  | FlowBreak c' _ => c' = set_authenticated c true
  | FlowReturn ret c' _ =>
      ret = false /\ (c' = c \/ c' = set_authenticated c true)
  end.
Proof.
  unfold handshake_body.
  destruct (0 <? recv_ret env i).
  - destruct (_ || _); [|reflexivity].
    destruct (negb _); [|reflexivity].
    destruct (send_gga_ret env <=? 0); auto.
  - destruct (recv_ret env i =? 0); auto.
Qed.

Lemma same_connection_refl (c : NtripClient) : same_connection c c.
Proof. now repeat split. Qed.

Lemma same_connection_authenticated (c : NtripClient) (v : bool) :
  same_connection c (set_authenticated c v).
Proof. now repeat split. Qed.

Lemma handshake_loop_effect (env : RunEnv) (timeout : Z) (turns : nat) :
  timeout < socket_timeout ->
  forall (i : nat) (c : NtripClient),
    same_connection c (client_of (handshake_loop turns env i timeout c))
    /\ match handshake_loop turns env i timeout c with
       | Returned (PastLoop t) c' _ => t = timeout /\ authenticated_ c' = true
       | Returned (ByReturn ret) _ _ => ret = false
       | _ => True
       end.
Proof.
  intro Ht.
  induction turns as [|turns IH]; intros i c; cbn [handshake_loop];
    destruct (Z.ltb_spec timeout socket_timeout); try lia.
  - split; [apply same_connection_refl | exact I].
  - pose proof (handshake_body_effect env i c) as Hbody.
    destruct (handshake_body env i c) as [c' tr | c' tr | ret c' tr].
    + subst c'. specialize (IH (S i) c). destruct IH as [IH1 IH2].
      rewrite client_of_after. split; [exact IH1|].
      destruct (handshake_loop turns env (S i) timeout c) as [[ret|t] c' tr'| |];
        exact IH2.
    + subst c'. simpl. split; [apply same_connection_authenticated | auto].
    + destruct Hbody as [-> [-> | ->]]; simpl;
        (split; [| reflexivity]).
      * apply same_connection_refl.
      * apply same_connection_authenticated.
Qed.

(** A [Run] that gets past [connect] holds a handle that is not
    negative; a [Run] that does not get that far sets no flag. *)
Lemma connect_and_authenticate_effect (turns : nat) (env : RunEnv)
  (c : NtripClient) :
  let c' := client_of (connect_and_authenticate turns env c) in
  (connected_ c' = connected_ c
   /\ authenticated_ c' = authenticated_ c
   /\ running_ c' = running_ c)
  \/ 0 <= sockfd_ c'.
Proof.
  unfold connect_and_authenticate.
  destruct (stoi (port_ c)) as [port|]; [|simpl; auto].
  destruct (negb (getaddrinfo_status env =? 0)); [simpl; auto|].
  cbn [sockfd_ set_sockfd].
  destruct (Z.ltb_spec (socket_ret env) 0); [simpl; auto|].
  destruct (connect_ret env <? 0); [simpl; auto|].
  destruct (send_request_ret env <=? 0); [simpl; auto|].
  right. rewrite client_of_after. unfold authenticate.
  destruct (handshake_loop_effect env 0 turns eq_refl 0%nat
              (set_connected (set_sockfd c (socket_ret env)) true))
    as [(Hfd & _ & _) _].
  destruct (handshake_loop turns env 0 0
              (set_connected (set_sockfd c (socket_ret env)) true))
    as [[ret|t] c' tr| c' tr | c' tr]; simpl in *; try lia.
  destruct (socket_timeout <=? t); simpl; lia.
Qed.

Lemma connect_and_authenticate_true (turns : nat) (env : RunEnv)
  (c c' : NtripClient) (tr : trace) :
  connect_and_authenticate turns env c = Returned true c' tr ->
  connected_ c' = true /\ authenticated_ c' = true /\ running_ c' = true
  /\ 0 <= sockfd_ c'.
Proof.
  unfold connect_and_authenticate.
  destruct (stoi (port_ c)) as [port|]; [|discriminate].
  destruct (negb (getaddrinfo_status env =? 0)); [discriminate|].
  cbn [sockfd_ set_sockfd].
  destruct (Z.ltb_spec (socket_ret env) 0) as [|Hsock]; [discriminate|].
  destruct (connect_ret env <? 0); [discriminate|].
  destruct (send_request_ret env <=? 0); [discriminate|].
  intro H. apply after_returned in H. destruct H as (t' & H & _).
  unfold authenticate in H.
  destruct (handshake_loop_effect env 0 turns eq_refl 0%nat
              (set_connected (set_sockfd c (socket_ret env)) true))
    as [(Hfd & Hconn & _) Hleft].
  destruct (handshake_loop turns env 0 0
              (set_connected (set_sockfd c (socket_ret env)) true))
    as [[ret|t] c2 tr2| c2 tr2 | c2 tr2]; simpl in *; try discriminate.
  - subst ret. discriminate.
  - destruct Hleft as [-> Hauth]. simpl in H.
    injection H as <- _. simpl. repeat split; try assumption. lia.
Qed.

(** C3, as the code has it: a [Run] that returns [true] leaves
    [connected_], [authenticated_] and [running_] set and [sockfd_] not
    negative; and whatever way a [Run] on a client with no flag set ends,
    a flag is set afterwards only with [sockfd_] not negative. *)
Theorem Run_sets_flags_with_socket :
  (forall (turns : nat) (env : RunEnv) (c c' : NtripClient) (tr : trace),
      Run turns env c = Returned true c' tr ->
      connected_ c' = true /\ authenticated_ c' = true /\ running_ c' = true
      /\ 0 <= sockfd_ c')
  /\ (forall (turns : nat) (env : RunEnv) (c : NtripClient),
         connected_ c = false ->
         authenticated_ c = false ->
         running_ c = false ->
         let c' := client_of (Run turns env c) in
         connected_ c' = true \/ authenticated_ c' = true \/ running_ c' = true ->
         0 <= sockfd_ c').
Proof.
  split.
  - intros turns env c c' tr. unfold Run.
    destruct (restart c) as [[] c1 tr1 | |]; simpl; try discriminate.
    intro H. apply after_returned in H. destruct H as (t' & H & _).
    now apply connect_and_authenticate_true in H.
  - intros turns env c Hconn Hauth Hrun. unfold Run, restart, IsRunning.
    rewrite Hrun. simpl. rewrite client_of_after.
    destruct (connect_and_authenticate_effect turns env c)
      as [(H1 & H2 & H3) | H]; [|auto].
    cbv zeta in *. intros [H | [H | H]]; congruence.
Qed.

Lemma accepting_Run :
  Run 50 (Scenario.accepting_peer 12) Scenario.rover_with_report
  = Returned true Scenario.streaming_rover
      (setup_events (Scenario.accepting_peer 12) Scenario.rover_with_report
         ++ [Recv 3 (-1); Print Cout [Str "ret:"; Int (-1); Endl]; Sleep 100;
             Recv 3 12; Send 3 "$GPGGA,1*00" 12;
             Print Cout [Str ("send gga sucess" ++ LF)%string]; Spawn]).
Proof. vm_compute. reflexivity. Qed.

Lemma Run_sets_flags_with_socket_witness :
  connected_ Scenario.streaming_rover = true
  /\ authenticated_ Scenario.streaming_rover = true
  /\ running_ Scenario.streaming_rover = true
  /\ 0 <= sockfd_ Scenario.streaming_rover.
Proof.
  destruct Run_sets_flags_with_socket as [Htrue _].
  exact (Htrue 50%nat (Scenario.accepting_peer 12) Scenario.rover_with_report
           Scenario.streaming_rover _ accepting_Run).
Defined.

(** C3, as stated, fails: a client that ran, and whose streaming loop
    then met a connection reset, has [connected_], [authenticated_] and
    [running_] set and [sockfd_] equal to -1. *)
Lemma flags_set_without_socket :
  reachable
    (set_thread (set_sockfd Scenario.streaming_rover (-1))
       (ThreadReturned false))
  /\ connected_
       (set_thread (set_sockfd Scenario.streaming_rover (-1))
          (ThreadReturned false)) = true
  /\ authenticated_
       (set_thread (set_sockfd Scenario.streaming_rover (-1))
          (ThreadReturned false)) = true
  /\ running_
       (set_thread (set_sockfd Scenario.streaming_rover (-1))
          (ThreadReturned false)) = true
  /\ sockfd_
       (set_thread (set_sockfd Scenario.streaming_rover (-1))
          (ThreadReturned false)) < 0.
Proof.
  split; [|repeat split].
  apply (reach_ThreadHandler Scenario.streaming_rover 0
           [Scenario.failed_recv Scenario.ECONNRESET] false
           (set_sockfd Scenario.streaming_rover (-1))
           [Print Cout [Str "NtripClient service running..."; Endl];
            Recv 3 (-1);
            Print Cerr [Str "Remote socket error, errno="; Int 104; Endl];
            Close 3]);
    [| reflexivity | reflexivity].
  eapply reach_Run; [| exact accepting_Run].
  apply (reach_UpdateGGA Scenario.rover "$GPGGA,1*00").
  apply (reach_Init default_client "caster.example.org" "2101" "RTCM33"
           "user" "secret").
  apply reach_default.
Qed.

(** ** Stop *)

(** C10: [Stop] on a client that is not running does nothing: no event
    happens (no thread is joined, no socket is closed) and the client is
    the same afterwards, member by member. *)
Theorem Stop_when_not_running (c : NtripClient) :
  IsRunning c = false -> Stop c = Returned tt c [].
Proof.
  unfold IsRunning, Stop. intro H. now rewrite H.
Qed.

Lemma Stop_when_not_running_witness :
  IsRunning default_client = false
  /\ Stop default_client = Returned tt default_client [].
Proof.
  split; [reflexivity|].
  apply (Stop_when_not_running default_client). reflexivity.
Defined.

(** The situations in which a client is not running: before any [Run],
    after a [Stop], after a [Run] that returned [false]. *)
Lemma fresh_client_not_running (host port mountpoint username password : string) :
  IsRunning default_client = false
  /\ IsRunning (construct host port mountpoint username password) = false
  /\ IsRunning
       (snd (Init default_client host port mountpoint username password))
     = false.
Proof. repeat split. Qed.

Lemma running_Cleanup (c : NtripClient) : running_ (fst (Cleanup c)) = running_ c.
Proof. unfold Cleanup. now destruct (0 <? sockfd_ c). Qed.

Lemma ThreadHandler_stopped (clock : Z) (c : NtripClient) :
  running_ c = false ->
  exists ret tr, ThreadHandler clock [] c = Returned ret (fst (Cleanup c)) tr.
Proof.
  intro Hrun. unfold ThreadHandler, refuse.
  destruct (negb (initialized_ c)); [destruct (Cleanup c); simpl; eauto|].
  destruct (negb (connected_ c)); [destruct (Cleanup c); simpl; eauto|].
  destruct (negb (authenticated_ c)); [destruct (Cleanup c); simpl; eauto|].
  destruct (sockfd_ c <? 0); [destruct (Cleanup c); simpl; eauto|].
  simpl. rewrite Hrun. destruct (Cleanup c); simpl; eauto.
Qed.

Lemma Stop_clears_running (c c' : NtripClient) (tr : trace) :
  Stop c = Returned tt c' tr -> IsRunning c' = false.
Proof.
  unfold Stop, IsRunning.
  destruct (running_ c) eqn:Hrun.
  - unfold join. cbn [thread_ set_running].
    destruct (thread_ c) as [| |ret].
    + discriminate.
    + destruct (ThreadHandler_stopped 0 (set_running c false) eq_refl)
        as (ret & t & Hth).
      rewrite Hth. simpl. intro H. injection H as <- _.
      simpl. now rewrite running_Cleanup.
    + simpl. intro H. now injection H as <- _.
  - intro H. now injection H as <- _.
Qed.

Lemma second_Stop_does_nothing (c c' : NtripClient) (tr : trace) :
  Stop c = Returned tt c' tr -> Stop c' = Returned tt c' [].
Proof.
  intro H. apply Stop_clears_running in H.
  unfold Stop. unfold IsRunning in H. now rewrite H.
Qed.

Lemma connect_and_authenticate_false (turns : nat) (env : RunEnv)
  (c c' : NtripClient) (tr : trace) :
  connect_and_authenticate turns env c = Returned false c' tr ->
  running_ c' = running_ c.
Proof.
  unfold connect_and_authenticate.
  destruct (stoi (port_ c)) as [port|]; [|discriminate].
  destruct (negb (getaddrinfo_status env =? 0));
    [intro H; now injection H as <- _|].
  cbn [sockfd_ set_sockfd].
  destruct (socket_ret env <? 0); [intro H; now injection H as <- _|].
  destruct (connect_ret env <? 0); [intro H; now injection H as <- _|].
  destruct (send_request_ret env <=? 0); [intro H; now injection H as <- _|].
  intro H. apply after_returned in H. destruct H as (t' & H & _).
  unfold authenticate in H.
  destruct (handshake_loop_effect env 0 turns eq_refl 0%nat
              (set_connected (set_sockfd c (socket_ret env)) true))
    as [(_ & _ & Hrun) Hleft].
  destruct (handshake_loop turns env 0 0
              (set_connected (set_sockfd c (socket_ret env)) true))
    as [[ret|t] c2 tr2| c2 tr2 | c2 tr2]; simpl in *; try discriminate.
  - injection H as _ <- _. exact Hrun.
  - destruct Hleft as [-> _]. discriminate.
Qed.

Lemma failed_Run_not_running (turns : nat) (env : RunEnv)
  (c c' : NtripClient) (tr : trace) :
  Run turns env c = Returned false c' tr -> IsRunning c' = false.
Proof.
  unfold Run, restart.
  destruct (IsRunning c) eqn:Hrun.
  - destruct (Stop c) as [[] c1 tr1 | |] eqn:Hstop; simpl; try discriminate.
    intro H. apply after_returned in H. destruct H as (t' & H & _).
    apply connect_and_authenticate_false in H.
    apply Stop_clears_running in Hstop.
    unfold IsRunning in *. congruence.
  - simpl. intro H. apply after_returned in H. destruct H as (t' & H & _).
    apply connect_and_authenticate_false in H.
    unfold IsRunning in *. congruence.
Qed.

(** ** The encoder and the request on examples *)

Example base64_encode_foobar :
  Base64.base64_encode "foobar" = "Zm9vYmFy"
  /\ Base64.base64_encode "fooba" = "Zm9vYmE="
  /\ Base64.base64_encode "foob" = "Zm9vYg=="
  /\ Base64.base64_encode "" = "".
Proof. repeat split; vm_compute; reflexivity. Qed.

Example base64_decode_foobar :
  Base64.base64_decode "Zm9vYmFy" = Some "foobar"
  /\ Base64.base64_decode "Zm9vYmE=" = Some "fooba"
  /\ Base64.base64_decode "Zm9vYg==" = Some "foob"
  /\ Base64.base64_decode "Zm9vYg=" = None.
Proof. repeat split; vm_compute; reflexivity. Qed.

Example full_request_rover :
  full_request Scenario.rover
  = ("GET /RTCM33 HTTP/1.1" ++ CRLF
       ++ "User-Agent: NTRIP NTRIPClient/1.2.0.b431661" ++ CRLF
       ++ "Authorization: Basic dXNlcjpzZWNyZXQ=" ++ CRLF ++ CRLF)%string.
Proof. vm_compute. reflexivity. Qed.

Example stoi_examples :
  stoi "8002" = Some 8002
  /\ stoi " +21x" = Some 21
  /\ stoi "-7" = Some (-7)
  /\ stoi "" = None
  /\ stoi "port" = None
  /\ stoi "99999999999" = None.
Proof. repeat split; vm_compute; reflexivity. Qed.

Example failed_report_is_fatal :
  send_fatal (Scenario.report_due (-1)) 0 Scenario.streaming_rover
  /\ thread_loop [Scenario.report_due (-1)] 0 Scenario.streaming_rover
     = Returned false (set_sockfd Scenario.streaming_rover (-1))
         [Recv 3 (-1); Send 3 "$GPGGA,1*00" (-1);
          Print Cerr [Str "Error: Could not send GGA data to server"; Endl];
          Close 3].
Proof.
  split; [|reflexivity].
  repeat split; [vm_compute; discriminate | discriminate].
Qed.

Example sent_report_goes_on :
  thread_loop [Scenario.report_due 13] 0 Scenario.streaming_rover
  = Unfinished Scenario.streaming_rover
      [Recv 3 (-1); Send 3 "$GPGGA,1*00" 13; Sleep 10].
Proof. reflexivity. Qed.

Example Stop_after_Run :
  Stop Scenario.streaming_rover
  = Returned tt
      (mkNtripClient "caster.example.org" "2101" "RTCM33" "user" "secret"
         (-1) "$GPGGA,1*00" NoThread true true true false)
      [Print Cout [Str "NtripClient service running..."; Endl]; Close 3;
       Print Cout [Str "NtripClient service done."; Endl]; Join; Close (-1)].
Proof. reflexivity. Qed.

(** * Further properties of the code *)

Import Observe.

(** ** base64_encode: length, padding, composition *)

Lemma size_String (a : ascii) (s : string) : size (String a s) = size s + 1.
Proof. unfold size. simpl String.length. lia. Qed.

Lemma rfc4648_encode_size (x : string) :
  size (Base64.rfc4648_encode x) = 4 * ((size x + 2) / 3).
Proof.
  induction x as [| a | a a' | a a' a'' rest IH] using string_ind3.
  - reflexivity.
  - reflexivity.
  - reflexivity.
  - cbn [Base64.rfc4648_encode]. rewrite !size_String, IH.
    pose proof (size_nonneg rest).
    Z.div_mod_to_equations. lia.
Qed.

(** X1: the output of [base64_encode] has 4 characters for every 3 input
    bytes, a last group of 1 or 2 bytes counting as one. *)
Theorem base64_encode_size (x : string) :
  size (Base64.base64_encode x) = 4 * ((size x + 2) / 3).
Proof.
  rewrite base64_encode_rfc4648. apply rfc4648_encode_size.
Qed.

Lemma over_alphabet_group (a a' a'' : ascii) (body : string) :
  Base64.over_alphabet body ->
  Base64.over_alphabet
    (String (Base64.b_at (Base64.sextet1 (u_char a)))
       (String (Base64.b_at (Base64.sextet2 (u_char a) (u_char a')))
          (String (Base64.b_at (Base64.sextet3 (u_char a') (u_char a'')))
             (String (Base64.b_at (Base64.sextet4 (u_char a''))) body)))).
Proof.
  intro H. simpl.
  repeat split; try assumption; apply b_at_in_alphabet; auto with b64.
Qed.

(** X2: the padding of [base64_encode] is decided by the input length
    alone: none when the length is a multiple of 3, [==] when one byte
    is left over, [=] when two are. *)
Theorem base64_encode_padding (x : string) :
  exists body,
    Base64.over_alphabet body
    /\ ((size x mod 3 = 0 /\ Base64.base64_encode x = body)
        \/ (size x mod 3 = 1
            /\ Base64.base64_encode x = (body ++ "==")%string)
        \/ (size x mod 3 = 2
            /\ Base64.base64_encode x = (body ++ "=")%string)).
Proof.
  rewrite base64_encode_rfc4648.
  induction x as [| a | a a' | a a' a'' rest IH] using string_ind3.
  - exists "". split; [exact I|]. left. split; reflexivity.
  - exists (String (Base64.b_at (Base64.sextet1 (u_char a)))
              (String (Base64.b_at (Base64.sextet2 (u_char a) 0)) "")).
    split.
    + simpl. repeat split; apply b_at_in_alphabet; auto with b64.
    + right. left. split; reflexivity.
  - exists (String (Base64.b_at (Base64.sextet1 (u_char a)))
              (String (Base64.b_at (Base64.sextet2 (u_char a) (u_char a')))
                 (String (Base64.b_at (Base64.sextet3 (u_char a') 0)) ""))).
    split.
    + simpl. repeat split; apply b_at_in_alphabet; auto with b64.
    + right. right. split; reflexivity.
  - destruct IH as (body & Hbody & IH).
    exists
      (String (Base64.b_at (Base64.sextet1 (u_char a)))
         (String (Base64.b_at (Base64.sextet2 (u_char a) (u_char a')))
            (String (Base64.b_at (Base64.sextet3 (u_char a') (u_char a'')))
               (String (Base64.b_at (Base64.sextet4 (u_char a''))) body)))).
    split; [apply over_alphabet_group; exact Hbody|].
    assert (Hmod : size (String a (String a' (String a'' rest))) mod 3
                   = size rest mod 3).
    { rewrite !size_String. Z.div_mod_to_equations. lia. }
    rewrite Hmod. cbn [Base64.rfc4648_encode].
    destruct IH as [[H1 ->] | [[H1 ->] | [H1 ->]]]; auto.
Qed.

(** X3: [base64_encode] is injective: different credentials never give
    the same header value. *)
Theorem base64_encode_injective (x y : string) :
  Base64.base64_encode x = Base64.base64_encode y -> x = y.
Proof.
  intro H.
  assert (Hx := decode_rfc4648_encode x).
  assert (Hy := decode_rfc4648_encode y).
  rewrite <- !base64_encode_rfc4648 in *.
  rewrite H in Hx. congruence.
Qed.

Lemma base64_encode_injective_witness :
  Base64.base64_encode "user:secret" = Base64.base64_encode "user:secret"
  /\ "user:secret" = "user:secret".
Proof.
  split; [reflexivity|].
  apply (base64_encode_injective "user:secret" "user:secret"). reflexivity.
Defined.

(** X4: after a whole number of 3-byte groups the encoder starts afresh:
    the encoding of [x ++ y] is the encoding of [x] followed by that of
    [y] whenever the length of [x] is a multiple of 3. *)
Theorem base64_encode_append (x y : string) :
  size x mod 3 = 0 ->
  Base64.base64_encode (x ++ y)
  = (Base64.base64_encode x ++ Base64.base64_encode y)%string.
Proof.
  rewrite !base64_encode_rfc4648.
  induction x as [| a | a a' | a a' a'' rest IH] using string_ind3;
    intro Hlen.
  - reflexivity.
  - discriminate Hlen.
  - discriminate Hlen.
  - assert (Hrest : size rest mod 3 = 0).
    { rewrite !size_String in Hlen. Z.div_mod_to_equations. lia. }
    cbn [append Base64.rfc4648_encode]. now rewrite (IH Hrest).
Qed.

Lemma base64_encode_append_witness :
  size "foo" mod 3 = 0
  /\ Base64.base64_encode ("foo" ++ "ba")
     = (Base64.base64_encode "foo" ++ Base64.base64_encode "ba")%string.
Proof.
  split; [reflexivity|].
  apply (base64_encode_append "foo" "ba"). reflexivity.
Defined.

(** ** Run: the request *)

(** X5: the request of [Run] is the request line for the mountpoint, the
    user agent line, the authorization line and an empty line, each ended
    by CR LF, and the credential after "Basic " decodes to the user name,
    a colon and the password. *)
Theorem full_request_format (c : NtripClient) :
  exists credential,
    full_request c
    = ("GET /" ++ mountpoint_ c ++ " HTTP/1.1" ++ CRLF
         ++ "User-Agent: NTRIP NTRIPClient/1.2.0.b431661" ++ CRLF
         ++ "Authorization: Basic " ++ credential ++ CRLF
         ++ CRLF)%string
    /\ Base64.base64_decode credential
       = Some (username_ c ++ ":" ++ password_ c)%string.
Proof.
  exists (Base64.base64_encode (username_ c ++ ":" ++ password_ c)).
  split.
  - unfold full_request. cbv zeta.
    rewrite !append_assoc. reflexivity.
  - rewrite base64_encode_rfc4648. apply decode_rfc4648_encode.
Qed.

(** ** Run: why it returns *)

(** What the result of a turn of the handshake tells about the answer of
    the peer at that turn. *)
Lemma handshake_body_cause (env : RunEnv) (i : nat) (c : NtripClient) :
  match handshake_body env i c with
  | FlowNext _ _ => keeps_polling env i
  | FlowBreak _ _ =>
      0 < recv_ret env i /\ success_response (chunk env i)
      /\ (gga_buffer_ c = "" \/ 0 < send_gga_ret env)
  | FlowReturn _ _ _ =>
      recv_ret env i = 0
      \/ (0 < recv_ret env i /\ success_response (chunk env i)
          /\ gga_buffer_ c <> "" /\ send_gga_ret env <= 0)
  end.
Proof.
  unfold handshake_body.
  destruct (Z.ltb_spec 0 (recv_ret env i)) as [Hpos|Hle].
  - destruct (is_pos (find (string_of_buffer (recv_buf env i) (recv_ret env i))
                        "HTTP/1.1 200 OK")
              || is_pos (find (string_of_buffer (recv_buf env i)
                                 (recv_ret env i)) "ICY 200 OK")) eqn:Htest.
    + apply success_test in Htest. fold (chunk env i) in Htest.
      cbn [gga_buffer_ set_authenticated].
      destruct (empty (gga_buffer_ c)) eqn:Hempty; simpl negb; cbv iota.
      * apply empty_spec in Hempty. auto.
      * apply not_empty_spec in Hempty.
        destruct (Z.leb_spec (send_gga_ret env) 0); [right|]; auto.
    + apply failure_test in Htest. fold (chunk env i) in Htest.
      right. auto.
  - destruct (Z.eqb_spec (recv_ret env i) 0); [now left|].
    left. lia.
Qed.

(** However the handshake loop is left, it is left at a turn [k] that all
    earlier turns led to by polling, and the answer at turn [k] is the
    cause: a success response on leaving past the loop, a closed
    connection or a failed [send] of the report on returning. *)
Lemma handshake_loop_cause (env : RunEnv) (turns : nat) :
  forall (i : nat) (c c' : NtripClient) (how : leave) (tr : trace),
    handshake_loop turns env i 0 c = Returned how c' tr ->
    exists k,
      (i <= k < i + turns)%nat
      /\ (forall j, (i <= j < k)%nat -> keeps_polling env j)
      /\ match how with
         | PastLoop _ =>
             0 < recv_ret env k /\ success_response (chunk env k)
             /\ (gga_buffer_ c = "" \/ 0 < send_gga_ret env)
         | ByReturn _ =>
             recv_ret env k = 0
             \/ (0 < recv_ret env k /\ success_response (chunk env k)
                 /\ gga_buffer_ c <> "" /\ send_gga_ret env <= 0)
         end.
Proof.
  induction turns as [|turns IH]; intros i c c' how tr Hloop;
    cbn [handshake_loop] in Hloop;
    change (0 <? socket_timeout) with true in Hloop; cbv iota in Hloop.
  - discriminate.
  - pose proof (handshake_body_cause env i c) as Hcause.
    pose proof (handshake_body_effect env i c) as Heffect.
    destruct (handshake_body env i c) as [c1 tr1 | c1 tr1 | ret c1 tr1].
    + subst c1. apply after_returned in Hloop.
      destruct Hloop as (t' & Hloop & _).
      apply IH in Hloop. destruct Hloop as (k & Hk & Hpoll & Hhow).
      exists k. split; [lia|]. split; [|exact Hhow].
      intros j Hj. destruct (Nat.eq_dec j i) as [->|Hne]; [exact Hcause|].
      apply Hpoll. lia.
    + injection Hloop as <- _ _.
      exists i. split; [lia|]. split; [intros j Hj; lia | exact Hcause].
    + injection Hloop as <- _ _.
      exists i. split; [lia|]. split; [intros j Hj; lia | exact Hcause].
Qed.

Lemma connect_and_authenticate_returned (turns : nat) (env : RunEnv)
  (c c' : NtripClient) (ret : bool) (tr : trace) :
  handshake_reached env c ->
  connect_and_authenticate turns env c = Returned ret c' tr ->
  exists how c2 tr2,
    handshake_loop turns env 0 0 (connected_client env c)
    = Returned how c2 tr2
    /\ match how with
       | PastLoop _ => ret = true
       | ByReturn _ => ret = false
       end.
Proof.
  intros Hreach Hrun.
  rewrite connect_to_handshake in Hrun by assumption.
  apply after_returned in Hrun. destruct Hrun as (t' & Hrun & _).
  unfold authenticate in Hrun.
  destruct (handshake_loop_effect env 0 turns eq_refl 0%nat
              (connected_client env c)) as [_ Hleft].
  destruct (handshake_loop turns env 0 0 (connected_client env c))
    as [[r|t] c2 tr2 | |]; simpl in Hrun; try discriminate.
  - subst r. injection Hrun as <- _ _. exists (ByReturn false), c2, tr2. auto.
  - destruct Hleft as [-> _]. simpl in Hrun. injection Hrun as <- _ _.
    exists (PastLoop 0), c2, tr2. auto.
Qed.

Lemma connect_and_authenticate_true_reached (turns : nat) (env : RunEnv)
  (c c' : NtripClient) (tr : trace) :
  connect_and_authenticate turns env c = Returned true c' tr ->
  handshake_reached env c.
Proof.
  unfold connect_and_authenticate, handshake_reached.
  destruct (stoi (port_ c)) as [port|]; [|discriminate].
  destruct (Z.eqb_spec (getaddrinfo_status env) 0); [|discriminate].
  simpl negb. cbv iota. cbn [sockfd_ set_sockfd].
  destruct (Z.ltb_spec (socket_ret env) 0); [discriminate|].
  destruct (Z.ltb_spec (connect_ret env) 0); [discriminate|].
  destruct (Z.leb_spec (send_request_ret env) 0); [discriminate|].
  intros _. repeat split; try assumption; try lia. discriminate.
Qed.

(** X6: [Run] returns [true] only after a success response: one of the
    turns followed delivered a chunk with "HTTP/1.1 200 OK" or
    "ICY 200 OK" in it, and every turn before it was a polling turn. *)
Theorem Run_true_needs_success (turns : nat) (env : RunEnv)
  (c c' : NtripClient) (tr : trace) :
  Run turns env c = Returned true c' tr ->
  exists k,
    (k < turns)%nat
    /\ 0 < recv_ret env k
    /\ success_response (chunk env k)
    /\ forall j, (j < k)%nat -> keeps_polling env j.
Proof.
  unfold Run.
  destruct (restart c) as [[] c1 tr1 | |]; simpl; try discriminate.
  intro H. apply after_returned in H. destruct H as (t' & H & _).
  pose proof (connect_and_authenticate_true_reached _ _ _ _ _ H) as Hreach.
  apply (connect_and_authenticate_returned _ _ _ _ _ _ Hreach) in H.
  destruct H as (how & c2 & tr2 & Hloop & Hhow).
  destruct how as [r|t]; [discriminate|].
  apply handshake_loop_cause in Hloop.
  destruct Hloop as (k & Hk & Hpoll & Hret & Hyes & _).
  exists k. repeat split; try assumption; try lia.
  intros j Hj. apply Hpoll. lia.
Qed.

Lemma Run_true_needs_success_witness :
  exists k,
    (k < 50)%nat
    /\ 0 < recv_ret (Scenario.accepting_peer 12) k
    /\ success_response (chunk (Scenario.accepting_peer 12) k)
    /\ forall j, (j < k)%nat -> keeps_polling (Scenario.accepting_peer 12) j.
Proof.
  exact (Run_true_needs_success 50 (Scenario.accepting_peer 12)
           Scenario.rover_with_report _ _ accepting_Run).
Defined.

(** X7: once the handshake loop is reached, [Run] returns [false] for
    two reasons only: a [recv] returned 0, or the success response came
    and the [send] of a non-empty report failed.  Neither a refusal nor
    the number of turns makes it return. *)
Theorem Run_false_after_handshake (turns : nat) (env : RunEnv)
  (c c1 c' : NtripClient) (tr1 tr : trace) :
  restart c = Returned tt c1 tr1 ->
  handshake_reached env c1 ->
  Run turns env c = Returned false c' tr ->
  exists k,
    (k < turns)%nat
    /\ (forall j, (j < k)%nat -> keeps_polling env j)
    /\ (recv_ret env k = 0
        \/ (0 < recv_ret env k /\ success_response (chunk env k)
            /\ gga_buffer_ c1 <> "" /\ send_gga_ret env <= 0)).
Proof.
  intros Hrestart Hreach. unfold Run. rewrite Hrestart. simpl.
  intro H. apply after_returned in H. destruct H as (t' & H & _).
  apply (connect_and_authenticate_returned _ _ _ _ _ _ Hreach) in H.
  destruct H as (how & c2 & tr2 & Hloop & Hhow).
  destruct how as [r|t]; [|discriminate].
  apply handshake_loop_cause in Hloop.
  destruct Hloop as (k & Hk & Hpoll & Hcause).
  exists k. split; [lia|]. split; [intros j Hj; apply Hpoll; lia|].
  exact Hcause.
Qed.

Lemma closing_Run :
  exists tr,
    Run 50 Scenario.closing_peer Scenario.rover
    = Returned false (connected_client Scenario.closing_peer Scenario.rover)
        tr.
Proof. eexists. vm_compute. reflexivity. Qed.

Lemma Run_false_after_handshake_witness :
  exists k,
    (k < 50)%nat
    /\ (forall j, (j < k)%nat -> keeps_polling Scenario.closing_peer j)
    /\ (recv_ret Scenario.closing_peer k = 0
        \/ (0 < recv_ret Scenario.closing_peer k
            /\ success_response (chunk Scenario.closing_peer k)
            /\ gga_buffer_ Scenario.rover <> ""
            /\ send_gga_ret Scenario.closing_peer <= 0)).
Proof.
  destruct closing_Run as [tr Hrun].
  exact (Run_false_after_handshake 50 Scenario.closing_peer Scenario.rover
           Scenario.rover _ [] tr eq_refl
           (rover_reaches_handshake _ _ _ (gga_buffer_ Scenario.rover))
           Hrun).
Defined.

(** ** Run: failures *)

Lemma handshake_body_return_closes (env : RunEnv) (i : nat)
  (c c' : NtripClient) (ret : bool) (tr : trace) :
  handshake_body env i c = FlowReturn ret c' tr ->
  exists tr0, tr = tr0 ++ [Close (sockfd_ c)].
Proof.
  unfold handshake_body.
  destruct (0 <? recv_ret env i).
  - destruct (_ || _); [|discriminate].
    destruct (negb _); [|discriminate].
    destruct (send_gga_ret env <=? 0); [|discriminate].
    intro H. injection H as _ _ <-. cbn [sockfd_ set_authenticated].
    now eexists [_; _; _].
  - destruct (recv_ret env i =? 0); [|discriminate].
    intro H. injection H as _ _ <-. now eexists [_; _].
Qed.

Lemma handshake_loop_return_closes (env : RunEnv) (turns : nat) :
  forall (i : nat) (c c' : NtripClient) (ret : bool) (tr : trace),
    handshake_loop turns env i 0 c = Returned (ByReturn ret) c' tr ->
    exists tr0, tr = tr0 ++ [Close (sockfd_ c)].
Proof.
  induction turns as [|turns IH]; intros i c c' ret tr Hloop;
    cbn [handshake_loop] in Hloop;
    change (0 <? socket_timeout) with true in Hloop; cbv iota in Hloop.
  - discriminate.
  - pose proof (handshake_body_effect env i c) as Heffect.
    destruct (handshake_body env i c) as [c1 tr1 | c1 tr1 | r c1 tr1] eqn:Hbody.
    + subst c1. apply after_returned in Hloop.
      destruct Hloop as (t' & Hloop & ->).
      apply IH in Hloop. destruct Hloop as [tr0 ->].
      exists ((tr1 ++ [Sleep 100]) ++ tr0). now rewrite app_assoc.
    + discriminate.
    + injection Hloop as _ _ <-.
      now apply handshake_body_return_closes in Hbody.
Qed.

(** X8: a [Run] that returns [false] after [socket] succeeded has closed
    that socket as the last thing it did; [sockfd_] still holds the
    closed handle, and the client is not running. *)
Theorem Run_failure_closes_socket (turns : nat) (env : RunEnv)
  (c c1 c' : NtripClient) (tr1 tr : trace) :
  restart c = Returned tt c1 tr1 ->
  getaddrinfo_status env = 0 ->
  0 <= socket_ret env ->
  Run turns env c = Returned false c' tr ->
  (exists tr0, tr = tr0 ++ [Close (socket_ret env)])
  /\ sockfd_ c' = socket_ret env
  /\ IsRunning c' = false.
Proof.
  intros Hrestart Hstatus Hsock.
  assert (Hidle : running_ c1 = false).
  { unfold restart in Hrestart. destruct (IsRunning c) eqn:Hrun.
    - now apply Stop_clears_running in Hrestart.
    - now injection Hrestart as <- _. }
  unfold IsRunning, Run. rewrite Hrestart. simpl.
  unfold connect_and_authenticate.
  destruct (stoi (port_ c1)) as [port|]; [|discriminate].
  rewrite Hstatus. simpl negb. cbv iota.
  cbn [sockfd_ set_sockfd set_connected].
  destruct (Z.ltb_spec (socket_ret env) 0) as [Hneg|_]; [lia|].
  destruct (connect_ret env <? 0).
  { simpl. intro H. injection H as <- <-.
    split; [| split; [reflexivity | exact Hidle]].
    eexists (tr1 ++ [_; _; _; _]). now rewrite <- app_assoc. }
  destruct (send_request_ret env <=? 0).
  { simpl. intro H. injection H as <- <-.
    split; [| split; [reflexivity | exact Hidle]].
    eexists (tr1 ++ [_; _; _; _; _; _]). now rewrite <- app_assoc. }
  intro H. apply after_returned in H. destruct H as (t1 & H & ->).
  apply after_returned in H. destruct H as (t2 & H & ->).
  unfold authenticate in H.
  destruct (handshake_loop_effect env 0 turns eq_refl 0%nat
              (set_connected (set_sockfd c1 (socket_ret env)) true))
    as [(Hfd & _ & Hrun) Hleft].
  destruct (handshake_loop turns env 0 0
              (set_connected (set_sockfd c1 (socket_ret env)) true))
    as [[r|t] c2 tr2 | |] eqn:Hloop; simpl in H; try discriminate.
  - injection H as _ <- <-.
    apply handshake_loop_return_closes in Hloop. destruct Hloop as [tr0 ->].
    simpl in *.
    split; [| split; [assumption | congruence]].
    eexists (tr1 ++ [_; _; _; _; _] ++ tr0).
    rewrite app_nil_r, <- !app_assoc. reflexivity.
  - destruct Hleft as [-> _]. discriminate.
Qed.

Lemma Run_failure_closes_socket_witness :
  exists tr0,
    Run 50 Scenario.closing_peer Scenario.rover
    = Returned false (connected_client Scenario.closing_peer Scenario.rover)
        (tr0 ++ [Close 3]).
Proof.
  destruct closing_Run as [tr Hrun].
  destruct (Run_failure_closes_socket 50 Scenario.closing_peer Scenario.rover
              Scenario.rover
              (connected_client Scenario.closing_peer Scenario.rover) [] tr
              eq_refl eq_refl) as ([tr0 Htr] & _).
  - simpl. lia.
  - exact Hrun.
  - exists tr0. rewrite Hrun, Htr. reflexivity.
Defined.

(** X9: when the host cannot be resolved, or no socket can be created,
    or the connection is refused, [Run] returns [false] having received
    and sent nothing; it has written no member but [sockfd_], which holds
    the result of [socket] if [socket] was called. *)
Theorem Run_fails_before_request (turns : nat) (env : RunEnv)
  (c c1 : NtripClient) (tr1 : trace) :
  restart c = Returned tt c1 tr1 ->
  stoi (port_ c1) <> None ->
  getaddrinfo_status env <> 0 \/ socket_ret env < 0 \/ connect_ret env < 0 ->
  exists tr2,
    Run turns env c
    = Returned false
        (if getaddrinfo_status env =? 0
         then set_sockfd c1 (socket_ret env)
         else c1)
        (tr1 ++ tr2)
    /\ sent tr2 = []
    /\ recv_count tr2 = 0%nat.
Proof.
  intros Hrestart Hport Hfail. unfold Run. rewrite Hrestart. simpl.
  unfold connect_and_authenticate.
  destruct (stoi (port_ c1)) as [port|]; [|congruence].
  destruct (Z.eqb_spec (getaddrinfo_status env) 0) as [Hst|Hst];
    simpl negb; cbv iota.
  - cbn [sockfd_ set_sockfd].
    destruct (Z.ltb_spec (socket_ret env) 0).
    + eexists. simpl. repeat split.
    + destruct (Z.ltb_spec (connect_ret env) 0); [|lia].
      eexists. simpl. repeat split.
  - eexists. simpl. repeat split.
Qed.

Lemma Run_fails_before_request_witness :
  exists tr2,
    Run 50 (mkRunEnv 0 3 (-1) 0 (fun _ => 0) (fun _ => "") 0) Scenario.rover
    = Returned false (set_sockfd Scenario.rover 3) ([] ++ tr2)
    /\ sent tr2 = []
    /\ recv_count tr2 = 0%nat.
Proof.
  apply (Run_fails_before_request 50
           (mkRunEnv 0 3 (-1) 0 (fun _ => 0) (fun _ => "") 0)
           Scenario.rover Scenario.rover [] eq_refl).
  - vm_compute. discriminate.
  - right. right. simpl. lia.
Defined.

(** X10: when [port_] does not begin with a decimal number that fits an
    [int], [Run] leaves by the exception of [std::stoi], before any call
    to the network and with the client as the optional [Stop] left it. *)
Theorem Run_throws_on_bad_port (turns : nat) (env : RunEnv)
  (c c1 : NtripClient) (tr1 : trace) :
  restart c = Returned tt c1 tr1 ->
  stoi (port_ c1) = None ->
  Run turns env c = Threw c1 tr1.
Proof.
  intros Hrestart Hport. unfold Run. rewrite Hrestart. simpl.
  unfold connect_and_authenticate. rewrite Hport. simpl.
  now rewrite app_nil_r.
Qed.

Lemma Run_throws_on_bad_port_witness :
  Run 50 Scenario.silent_peer default_client = Threw default_client [].
Proof.
  apply (Run_throws_on_bad_port 50 Scenario.silent_peer default_client
           default_client []); reflexivity.
Defined.

(** ** ThreadHandler: how it returns *)

Lemma close_count_app (fd : Z) (tr1 tr2 : trace) :
  close_count fd (tr1 ++ tr2)
  = (close_count fd tr1 + close_count fd tr2)%nat.
Proof.
  induction tr1 as [|e tr1 IH]; simpl; [reflexivity|].
  destruct e; try exact IH.
  destruct (_ =? fd); simpl; now rewrite IH.
Qed.


(** [Cleanup] looks at [sockfd_] only. *)
Lemma Cleanup_by_sockfd (c1 c2 : NtripClient) :
  sockfd_ c1 = sockfd_ c2 ->
  snd (Cleanup c1) = snd (Cleanup c2)
  /\ sockfd_ (fst (Cleanup c1)) = sockfd_ (fst (Cleanup c2)).
Proof.
  intro H. unfold Cleanup. rewrite H.
  destruct (0 <? sockfd_ c2); simpl; auto.
Qed.

Lemma Cleanup_counts (c : NtripClient) :
  (0 < sockfd_ c ->
   sockfd_ (fst (Cleanup c)) = -1
   /\ close_count (sockfd_ c) (snd (Cleanup c)) = 1%nat)
  /\ (sockfd_ c <= 0 ->
      fst (Cleanup c) = c /\ snd (Cleanup c) = []).
Proof.
  unfold Cleanup. split; intro H.
  - destruct (Z.ltb_spec 0 (sockfd_ c)); [|lia].
    simpl. now rewrite Z.eqb_refl.
  - destruct (Z.ltb_spec 0 (sockfd_ c)); [lia|]. auto.
Qed.

(** The halves of a turn close nothing unless they return, and then it
    is [Cleanup] that closes. *)
Lemma on_recv_closing (tk : Tick) (c : NtripClient) (fd : Z) :
  match on_recv tk c with
  | Next _ tr => close_count fd tr = 0%nat /\ sent tr = []
  | Return _ _ tr =>
      close_count fd tr = close_count fd (snd (Cleanup c)) /\ sent tr = []
  end.
Proof.
  unfold on_recv.
  destruct (tick_recv_ret tk =? 0); [now split|].
  destruct (tick_recv_ret tk <? 0); [|now split].
  destruct (_ && _); [|now split].
  unfold Cleanup. destruct (0 <? sockfd_ c); now split.
Qed.

Lemma on_timer_closing (tk : Tick) (start_time : Z) (c : NtripClient)
  (fd : Z) :
  match on_timer tk start_time c with
  | Next _ tr => close_count fd tr = 0%nat
  | Return _ _ tr => close_count fd tr = close_count fd (snd (Cleanup c))
  end.
Proof.
  unfold on_timer.
  destruct (reporting_interval_ms <=? _); [|reflexivity].
  destruct (negb _); [|reflexivity].
  destruct (tick_send_ret tk <? 0); [|reflexivity].
  unfold Cleanup. destruct (0 <? sockfd_ c); reflexivity.
Qed.

Lemma thread_body_closing (tk : Tick) (start_time : Z) (c : NtripClient)
  (fd : Z) :
  match thread_body tk start_time c with
  | Next _ tr => close_count fd tr = 0%nat
  | Return _ _ tr => close_count fd tr = close_count fd (snd (Cleanup c))
  end.
Proof.
  unfold thread_body.
  pose proof (on_recv_closing tk c fd) as Hrecv.
  pose proof (on_timer_closing tk start_time c fd) as Htimer.
  destruct (on_recv tk c) as [[] tr1 | r1 c1 tr1]; [|tauto].
  destruct Hrecv as [Hrecv _].
  destruct (on_timer tk start_time c) as [st tr2 | r2 c2 tr2];
    rewrite !close_count_app, Hrecv, Htimer; simpl; lia.
Qed.

(** Whenever the loop returns, [Cleanup] has been run once on the handle
    the loop was entered with, and nothing else has closed anything. *)
Lemma thread_loop_returns_cleaned (ticks : list Tick) :
  forall (start_time : Z) (c c' : NtripClient) (ret : bool) (tr : trace),
    thread_loop ticks start_time c = Returned ret c' tr ->
    sockfd_ c' = sockfd_ (fst (Cleanup c))
    /\ forall fd, close_count fd tr = close_count fd (snd (Cleanup c)).
Proof.
  induction ticks as [|tk rest IH]; intros start_time c c' ret tr Hloop.
  - simpl in Hloop. destruct (running_ c); [discriminate|].
    destruct (Cleanup c) as [c0 closing]. injection Hloop as _ <- <-.
    split; [reflexivity|]. intro fd. rewrite close_count_app. simpl. lia.
  - cbn [thread_loop] in Hloop.
    destruct (running_ c).
    + pose proof (thread_body_closing tk start_time (caller_updates_gga tk c))
        as Hbody.
      destruct (Cleanup_by_sockfd (caller_updates_gga tk c) c
                  (sockfd_caller_updates_gga tk c)) as [Hsnd Hfst].
      destruct (thread_body tk start_time (caller_updates_gga tk c))
        as [st tr1 | r c1 tr1] eqn:Hturn.
      * apply after_returned in Hloop. destruct Hloop as (t' & Hloop & ->).
        apply IH in Hloop. destruct Hloop as [Hfd Hcount].
        destruct (flags_caller_writes tk c) as (Hsame & _).
        cbv zeta in Hsame.
        destruct (Cleanup_by_sockfd _ c Hsame) as [Hsnd' Hfst'].
        split; [congruence|].
        intro fd. rewrite close_count_app, (Hbody fd), Hcount, Hsnd'.
        reflexivity.
      * injection Hloop as <- <- <-.
        apply thread_body_return in Hturn. destruct Hturn as (_ & -> & _).
        split; [exact Hfst|].
        intro fd. now rewrite (Hbody fd), Hsnd.
    + destruct (Cleanup c) as [c0 closing]. injection Hloop as _ <- <-.
      split; [reflexivity|]. intro fd. rewrite close_count_app. simpl. lia.
Qed.

Lemma ThreadHandler_returns_cleaned (clock : Z) (ticks : list Tick)
  (c c' : NtripClient) (ret : bool) (tr : trace) :
  ThreadHandler clock ticks c = Returned ret c' tr ->
  sockfd_ c' = sockfd_ (fst (Cleanup c))
  /\ forall fd, close_count fd tr = close_count fd (snd (Cleanup c)).
Proof.
  unfold ThreadHandler, refuse.
  destruct (negb (initialized_ c));
    [destruct (Cleanup c); intro H; injection H as _ <- <-; now split|].
  destruct (negb (connected_ c));
    [destruct (Cleanup c); intro H; injection H as _ <- <-; now split|].
  destruct (negb (authenticated_ c));
    [destruct (Cleanup c); intro H; injection H as _ <- <-; now split|].
  destruct (sockfd_ c <? 0);
    [destruct (Cleanup c); intro H; injection H as _ <- <-; now split|].
  intro H. apply after_returned in H. destruct H as (t' & H & ->).
  apply thread_loop_returns_cleaned in H. destruct H as [Hfd Hcount].
  split; [exact Hfd|]. intro fd. simpl. apply Hcount.
Qed.

(** X11: whatever way [ThreadHandler] returns ([true] or [false], from
    an entry check or from the loop, after any turns), a socket with a
    handle above 0 has been closed exactly once and [sockfd_] is -1. *)
Theorem ThreadHandler_closes_once (clock : Z) (ticks : list Tick)
  (c c' : NtripClient) (ret : bool) (tr : trace) :
  0 < sockfd_ c ->
  ThreadHandler clock ticks c = Returned ret c' tr ->
  sockfd_ c' = -1 /\ close_count (sockfd_ c) tr = 1%nat.
Proof.
  intros Hopen Hret.
  apply ThreadHandler_returns_cleaned in Hret. destruct Hret as [Hfd Hcount].
  destruct (Cleanup_counts c) as [Hc _]. destruct (Hc Hopen) as [H1 H2].
  rewrite Hfd, Hcount. auto.
Qed.

Lemma ThreadHandler_closes_once_witness :
  sockfd_ (set_sockfd Scenario.streaming_rover (-1)) = -1
  /\ close_count 3
       [Print Cout [Str "NtripClient service running..."; Endl];
        Recv 3 0; Print Cerr [Str "Remote socket closed"; Endl]; Sleep 10;
        Recv 3 (-1);
        Print Cerr [Str "Remote socket error, errno="; Int 104; Endl];
        Close 3] = 1%nat.
Proof.
  apply (ThreadHandler_closes_once 0
           [Scenario.end_of_stream;
            Scenario.failed_recv Scenario.ECONNRESET]
           Scenario.streaming_rover
           (set_sockfd Scenario.streaming_rover (-1)) false).
  - reflexivity.
  - reflexivity.
Defined.

(** X12: with the handle 0, which the entry check accepts, no return of
    [ThreadHandler] closes the socket: [Cleanup] passes it over and
    [sockfd_] is still 0 afterwards. *)
Theorem ThreadHandler_leaves_handle_zero (clock : Z) (ticks : list Tick)
  (c c' : NtripClient) (ret : bool) (tr : trace) :
  sockfd_ c = 0 ->
  ThreadHandler clock ticks c = Returned ret c' tr ->
  sockfd_ c' = 0 /\ forall fd, close_count fd tr = 0%nat.
Proof.
  intros Hzero Hret.
  apply ThreadHandler_returns_cleaned in Hret. destruct Hret as [Hfd Hcount].
  destruct (Cleanup_counts c) as [_ Hc].
  destruct Hc as [H1 H2]; [lia|].
  rewrite Hfd, H1. split; [exact Hzero|].
  intro fd. now rewrite Hcount, H2.
Qed.

Lemma ThreadHandler_leaves_handle_zero_witness :
  sockfd_ (set_sockfd Scenario.streaming_rover 0) = 0
  /\ forall fd,
       close_count fd
         [Print Cout [Str "NtripClient service running..."; Endl];
          Recv 0 (-1);
          Print Cerr [Str "Remote socket error, errno="; Int 104; Endl]]
       = 0%nat.
Proof.
  apply (ThreadHandler_leaves_handle_zero 0
           [Scenario.failed_recv Scenario.ECONNRESET]
           (set_sockfd Scenario.streaming_rover 0)
           (set_sockfd Scenario.streaming_rover 0) false).
  - reflexivity.
  - reflexivity.
Defined.

(** X13: when one of the four entry checks fails, [ThreadHandler] takes
    no turn of the loop: whatever the network holds ready, it prints one
    message, runs [Cleanup] and returns [false]. *)
Theorem ThreadHandler_refuses (clock : Z) (ticks : list Tick)
  (c : NtripClient) :
  ~ entry_checks c ->
  exists msg,
    ThreadHandler clock ticks c
    = Returned false (fst (Cleanup c))
        (Print Cerr [Str msg; Endl] :: snd (Cleanup c)).
Proof.
  intro Hfail. unfold ThreadHandler, refuse.
  destruct (initialized_ c) eqn:Hinit; simpl negb; cbv iota;
    [| destruct (Cleanup c); eauto].
  destruct (connected_ c) eqn:Hconn; simpl negb; cbv iota;
    [| destruct (Cleanup c); eauto].
  destruct (authenticated_ c) eqn:Hauth; simpl negb; cbv iota;
    [| destruct (Cleanup c); eauto].
  destruct (Z.ltb_spec (sockfd_ c) 0); [destruct (Cleanup c); eauto|].
  elim Hfail. now repeat split.
Qed.

Lemma ThreadHandler_refuses_witness :
  exists msg,
    ThreadHandler 0 [Scenario.end_of_stream] Scenario.rover
    = Returned false (fst (Cleanup Scenario.rover))
        (Print Cerr [Str msg; Endl] :: snd (Cleanup Scenario.rover)).
Proof.
  apply (ThreadHandler_refuses 0 [Scenario.end_of_stream] Scenario.rover).
  intros (_ & Hconn & _). discriminate Hconn.
Defined.

Lemma thread_loop_true (ticks : list Tick) :
  forall (start_time : Z) (c c' : NtripClient) (tr : trace),
    thread_loop ticks start_time c = Returned true c' tr ->
    running_ c' = false
    /\ (running_ c = false
        \/ Exists (fun tk => tick_stop_requested tk = true) ticks).
Proof.
  induction ticks as [|tk rest IH]; intros start_time c c' tr Hloop.
  - simpl in Hloop. destruct (running_ c) eqn:Hrun; [discriminate|].
    destruct (Cleanup c) as [c0 closing] eqn:Hclean.
    injection Hloop as <- _.
    pose proof (running_Cleanup c) as H. rewrite Hclean in H. simpl in H.
    split; [congruence | now left].
  - cbn [thread_loop] in Hloop.
    destruct (running_ c) eqn:Hrun.
    + destruct (thread_body tk start_time (caller_updates_gga tk c))
        as [st tr1 | r c1 tr1] eqn:Hturn.
      * apply after_returned in Hloop. destruct Hloop as (t' & Hloop & _).
        apply IH in Hloop. destruct Hloop as [Hstopped Hwhy].
        split; [exact Hstopped|]. right.
        destruct Hwhy as [Hwhy | Hwhy]; [|now apply Exists_cons_tl].
        apply Exists_cons_hd.
        unfold caller_requests_stop in Hwhy.
        destruct (tick_stop_requested tk); [reflexivity|].
        rewrite running_caller_updates_gga in Hwhy. congruence.
      * apply thread_body_return in Hturn. destruct Hturn as (-> & _).
        discriminate.
    + destruct (Cleanup c) as [c0 closing] eqn:Hclean.
      injection Hloop as <- _.
      pose proof (running_Cleanup c) as H. rewrite Hclean in H. simpl in H.
      split; [congruence | now left].
Qed.

(** X14: [ThreadHandler] returns [true] only when it was asked to stop:
    the entry checks passed, [running_] was clear on entry or cleared by
    the caller during one of the turns, and it is clear afterwards. *)
Theorem ThreadHandler_true_means_stopped (clock : Z) (ticks : list Tick)
  (c c' : NtripClient) (tr : trace) :
  ThreadHandler clock ticks c = Returned true c' tr ->
  entry_checks c
  /\ IsRunning c' = false
  /\ (running_ c = false
      \/ Exists (fun tk => tick_stop_requested tk = true) ticks).
Proof.
  unfold ThreadHandler, refuse, entry_checks, IsRunning.
  destruct (initialized_ c); simpl negb; cbv iota;
    [| destruct (Cleanup c); discriminate].
  destruct (connected_ c); simpl negb; cbv iota;
    [| destruct (Cleanup c); discriminate].
  destruct (authenticated_ c); simpl negb; cbv iota;
    [| destruct (Cleanup c); discriminate].
  destruct (Z.ltb_spec (sockfd_ c) 0) as [|Hfd];
    [destruct (Cleanup c); discriminate|].
  intro H. apply after_returned in H. destruct H as (t' & H & _).
  apply thread_loop_true in H. destruct H as [H1 H2].
  repeat split; assumption.
Qed.

Lemma ThreadHandler_true_means_stopped_witness :
  entry_checks (set_running Scenario.streaming_rover false)
  /\ IsRunning (set_sockfd (set_running Scenario.streaming_rover false) (-1))
     = false
  /\ (running_ (set_running Scenario.streaming_rover false) = false
      \/ Exists (fun tk => tick_stop_requested tk = true) []).
Proof.
  apply (ThreadHandler_true_means_stopped 0 []
           (set_running Scenario.streaming_rover false)
           (set_sockfd (set_running Scenario.streaming_rover false) (-1))
           [Print Cout [Str "NtripClient service running..."; Endl];
            Close 3;
            Print Cout [Str "NtripClient service done."; Endl]]).
  reflexivity.
Defined.

Lemma thread_loop_stopped (ticks : list Tick) (start_time : Z)
  (c : NtripClient) :
  running_ c = false ->
  thread_loop ticks start_time c
  = Returned true (fst (Cleanup c))
      (snd (Cleanup c)
         ++ [Print Cout [Str "NtripClient service done."; Endl]]).
Proof.
  intro Hrun. destruct ticks; simpl; rewrite Hrun;
    now destruct (Cleanup c).
Qed.

(** X15: a stop request is seen at the next test of the loop condition:
    the turn during which the caller clears [running_] is finished, and
    then, without another [recv] whatever turns were still to come,
    [Cleanup] is run and [ThreadHandler] returns [true]. *)
Theorem stop_request_ends_loop (tk : Tick) (rest : list Tick)
  (start_time start_time' : Z) (c : NtripClient) (tr : trace) :
  running_ c = true ->
  tick_stop_requested tk = true ->
  thread_body tk start_time (caller_updates_gga tk c) = Next start_time' tr ->
  let stopped := set_running (caller_updates_gga tk c) false in
  thread_loop (tk :: rest) start_time c
  = Returned true (fst (Cleanup stopped))
      (tr ++ snd (Cleanup stopped)
         ++ [Print Cout [Str "NtripClient service done."; Endl]]).
Proof.
  intros Hrun Hstop Hturn stopped.
  cbn [thread_loop]. rewrite Hrun, Hturn.
  unfold caller_requests_stop. rewrite Hstop. fold stopped.
  now rewrite thread_loop_stopped by reflexivity.
Qed.

Lemma stop_request_ends_loop_witness :
  thread_loop
    [mkTick None 0 "" 0 10000000 10000000 0 true; Scenario.end_of_stream]
    0 Scenario.streaming_rover
  = Returned true
      (set_sockfd (set_running Scenario.streaming_rover false) (-1))
      [Recv 3 0; Print Cerr [Str "Remote socket closed"; Endl]; Sleep 10;
       Close 3; Print Cout [Str "NtripClient service done."; Endl]].
Proof.
  apply (stop_request_ends_loop
           (mkTick None 0 "" 0 10000000 10000000 0 true)
           [Scenario.end_of_stream] 0 0 Scenario.streaming_rover
           [Recv 3 0; Print Cerr [Str "Remote socket closed"; Endl];
            Sleep 10]);
    reflexivity.
Defined.

(** ** ThreadHandler: the position report *)







(** ** Stop and the destructor *)

Lemma flags_Cleanup (c : NtripClient) :
  connected_ (fst (Cleanup c)) = connected_ c
  /\ authenticated_ (fst (Cleanup c)) = authenticated_ c
  /\ thread_ (fst (Cleanup c)) = thread_ c.
Proof. unfold Cleanup. destruct (0 <? sockfd_ c); simpl; auto. Qed.

(** X17: [Stop] on a running client whose thread can be joined joins it,
    and the socket is closed exactly once: by [Cleanup] in the thread
    when the handle is above 0 ([Stop]'s own [close] then gets -1), by
    [Stop] itself when the handle is 0.  Afterwards the client is not
    running and has no thread; [connected_] and [authenticated_] are as
    before. *)
Theorem Stop_joins_and_closes_once (c : NtripClient) :
  running_ c = true ->
  thread_ c <> NoThread ->
  0 <= sockfd_ c ->
  exists c' tr,
    Stop c = Returned tt c' tr
    /\ close_count (sockfd_ c) tr = 1%nat
    /\ In Join tr
    /\ thread_ c' = NoThread
    /\ IsRunning c' = false
    /\ connected_ c' = connected_ c
    /\ authenticated_ c' = authenticated_ c.
Proof.
  intros Hrun Hthread Hfd. unfold Stop, join, IsRunning. rewrite Hrun.
  cbn [thread_ set_running].
  destruct (thread_ c) as [| | r] eqn:Hth; [congruence | |].
  - destruct (ThreadHandler_stopped 0 (set_running c false) eq_refl)
      as (ret & t & Hhandler).
    rewrite Hhandler.
    apply ThreadHandler_returns_cleaned in Hhandler.
    destruct Hhandler as [_ Hcount].
    destruct (flags_Cleanup (set_running c false)) as (Hc & Ha & _).
    pose proof (running_Cleanup (set_running c false)) as Hr.
    destruct (Cleanup_counts (set_running c false)) as [Hopen Hzero].
    cbn [sockfd_ set_running] in Hopen, Hzero.
    eexists _, _. split; [reflexivity|].
    cbn [sockfd_ set_thread thread_ running_ connected_ authenticated_].
    rewrite Hc, Ha, Hr.
    repeat split; try reflexivity.
    + rewrite !close_count_app, Hcount.
      destruct (Z.eq_dec (sockfd_ c) 0) as [H0|Hne].
      * destruct Hzero as [Hsame Hnil]; [lia|].
        rewrite Hnil, Hsame. cbn [close_count app sockfd_ set_running].
        now rewrite Z.eqb_refl.
      * destruct Hopen as [Hreset Hone]; [lia|].
        cbn [sockfd_ set_running] in Hone. rewrite Hone, Hreset.
        cbn [close_count app].
        destruct (Z.eqb_spec (-1) (sockfd_ c)); [lia | reflexivity].
    + apply in_or_app. left. apply in_or_app. right. now left.
  - eexists _, _. split; [reflexivity|].
    simpl. rewrite Z.eqb_refl. repeat split; auto.
Qed.

Lemma Stop_joins_and_closes_once_witness :
  exists c' tr,
    Stop Scenario.streaming_rover = Returned tt c' tr
    /\ close_count 3 tr = 1%nat
    /\ In Join tr
    /\ thread_ c' = NoThread
    /\ IsRunning c' = false
    /\ connected_ c' = true
    /\ authenticated_ c' = true.
Proof.
  apply (Stop_joins_and_closes_once Scenario.streaming_rover).
  - reflexivity.
  - discriminate.
  - simpl. lia.
Defined.

(** X18: after a [Stop] that returned, nothing is left to stop: another
    [Stop], and the destructor, do nothing at all. *)
Theorem Stop_leaves_nothing_to_stop (c c' : NtripClient) (tr : trace) :
  Stop c = Returned tt c' tr ->
  Stop c' = Returned tt c' [] /\ destroy c' = Returned tt c' [].
Proof.
  intro H. apply Stop_clears_running in H.
  unfold destroy, Stop. unfold IsRunning in *. now rewrite H.
Qed.

Lemma Stop_leaves_nothing_to_stop_witness :
  Stop (set_sockfd (set_thread (set_running Scenario.streaming_rover false)
                      NoThread) (-1))
  = Returned tt
      (set_sockfd (set_thread (set_running Scenario.streaming_rover false)
                     NoThread) (-1)) []
  /\ destroy
       (set_sockfd (set_thread (set_running Scenario.streaming_rover false)
                      NoThread) (-1))
     = Returned tt
         (set_sockfd (set_thread (set_running Scenario.streaming_rover false)
                        NoThread) (-1)) [].
Proof.
  apply (Stop_leaves_nothing_to_stop Scenario.streaming_rover _
           [Print Cout [Str "NtripClient service running..."; Endl];
            Close 3;
            Print Cout [Str "NtripClient service done."; Endl]; Join;
            Close (-1)]).
  reflexivity.
Defined.

(** X19: a [Run] that returned [false] leaves a client that is not
    running, whether or not it was running before: [Stop] and the
    destructor then do nothing, and in particular do not close the
    handle again that the failed [Run] left in [sockfd_]. *)
Theorem failed_Run_leaves_nothing_to_stop (turns : nat) (env : RunEnv)
  (c c' : NtripClient) (tr : trace) :
  Run turns env c = Returned false c' tr ->
  IsRunning c' = false
  /\ Stop c' = Returned tt c' []
  /\ destroy c' = Returned tt c' [].
Proof.
  intro H. apply failed_Run_not_running in H.
  unfold destroy, Stop. unfold IsRunning in *. now rewrite H.
Qed.

Lemma failed_Run_leaves_nothing_to_stop_witness :
  IsRunning (connected_client Scenario.closing_peer Scenario.rover) = false
  /\ Stop (connected_client Scenario.closing_peer Scenario.rover)
     = Returned tt (connected_client Scenario.closing_peer Scenario.rover) []
  /\ destroy (connected_client Scenario.closing_peer Scenario.rover)
     = Returned tt (connected_client Scenario.closing_peer Scenario.rover) [].
Proof.
  destruct closing_Run as [tr Hrun].
  exact (failed_Run_leaves_nothing_to_stop 50 Scenario.closing_peer
           Scenario.rover _ tr Hrun).
Defined.

(** ** What Run and Stop leave alone *)

Lemma same_settings_refl (c : NtripClient) : same_settings c c.
Proof. now repeat split. Qed.

Lemma same_settings_trans (c1 c2 c3 : NtripClient) :
  same_settings c1 c2 -> same_settings c2 c3 -> same_settings c1 c3.
Proof.
  unfold same_settings.
  intros (A1 & A2 & A3 & A4 & A5 & A6 & A7) (B1 & B2 & B3 & B4 & B5 & B6 & B7).
  repeat split; congruence.
Qed.

Lemma same_settings_Cleanup (c : NtripClient) :
  same_settings c (fst (Cleanup c)).
Proof.
  unfold Cleanup. destruct (0 <? sockfd_ c); now repeat split.
Qed.

Lemma same_settings_Stop (c : NtripClient) :
  same_settings c (client_of (Stop c)).
Proof.
  unfold Stop, join. destruct (running_ c); [|apply same_settings_refl].
  cbn [thread_ set_running].
  destruct (thread_ c) as [| | r].
  - now repeat split.
  - destruct (ThreadHandler_stopped 0 (set_running c false) eq_refl)
      as (ret & t & Hhandler).
    rewrite Hhandler. simpl.
    apply (same_settings_trans _ (set_running c false));
      [now repeat split|].
    apply (same_settings_trans _ (fst (Cleanup (set_running c false))));
      [apply same_settings_Cleanup | now repeat split].
  - now repeat split.
Qed.

Lemma same_settings_handshake_loop (env : RunEnv) (timeout : Z)
  (turns : nat) :
  forall (i : nat) (c : NtripClient),
    same_settings c (client_of (handshake_loop turns env i timeout c)).
Proof.
  induction turns as [|turns IH]; intros i c; cbn [handshake_loop];
    destruct (timeout <? socket_timeout); try apply same_settings_refl.
  pose proof (handshake_body_effect env i c) as Hbody.
  destruct (handshake_body env i c) as [c' tr | c' tr | ret c' tr].
  - subst c'. rewrite client_of_after. apply IH.
  - subst c'. now repeat split.
  - destruct Hbody as [_ [-> | ->]]; now repeat split.
Qed.

Lemma same_settings_connect_and_authenticate (turns : nat) (env : RunEnv)
  (c : NtripClient) :
  same_settings c (client_of (connect_and_authenticate turns env c)).
Proof.
  unfold connect_and_authenticate.
  destruct (stoi (port_ c)) as [port|]; [|apply same_settings_refl].
  destruct (negb (getaddrinfo_status env =? 0)); [apply same_settings_refl|].
  cbn [sockfd_ set_sockfd].
  destruct (socket_ret env <? 0); [now repeat split|].
  destruct (connect_ret env <? 0); [now repeat split|].
  destruct (send_request_ret env <=? 0); [now repeat split|].
  rewrite client_of_after. unfold authenticate.
  apply (same_settings_trans _
           (set_connected (set_sockfd c (socket_ret env)) true));
    [now repeat split|].
  pose proof (same_settings_handshake_loop env 0 turns 0%nat
                (set_connected (set_sockfd c (socket_ret env)) true)) as Hloop.
  destruct (handshake_loop turns env 0 0
              (set_connected (set_sockfd c (socket_ret env)) true))
    as [[r|t] c2 tr2 | c2 tr2 | c2 tr2]; simpl in *; try exact Hloop.
  destruct (socket_timeout <=? t); simpl;
    [exact Hloop|].
  apply (same_settings_trans _ c2); [exact Hloop | now repeat split].
Qed.

(** X20: neither [Run] nor [Stop], however they end, changes the
    connection details, [initialized_] or the report buffer: what [Init]
    and [UpdateGGA] stored is still there for the next [Run]. *)
Theorem Run_and_Stop_keep_settings (turns : nat) (env : RunEnv)
  (c : NtripClient) :
  same_settings c (client_of (Run turns env c))
  /\ same_settings c (client_of (Stop c)).
Proof.
  split; [|apply same_settings_Stop].
  unfold Run, restart, IsRunning.
  pose proof (same_settings_Stop c) as Hstop.
  destruct (running_ c) eqn:Hrun.
  - destruct (Stop c) as [[] c1 tr1 | c1 tr1 | c1 tr1]; simpl in *;
      try exact Hstop.
    rewrite client_of_after.
    apply (same_settings_trans _ c1); [exact Hstop|].
    apply same_settings_connect_and_authenticate.
  - simpl. rewrite client_of_after.
    apply same_settings_connect_and_authenticate.
Qed.
